(** * Acronym extraction: a shallow embedding of [dict_sw.py] and [dict_ac.py]

    The two scripts turn plain text into a vocabulary.  [dict_sw.py]
    (class [SchwartzHearstExtractor], "mapping mode") pairs parenthesised
    acronyms with the phrase that precedes them; [dict_ac.py] (class
    [NavalDocumentProcessor], "vocabulary mode") counts ordinary words and
    standalone acronyms.

    Text is modelled as [list ascii].  The character classes below are the
    restrictions of Python's [str] predicates to 7-bit ASCII; the remaining
    128 values of the type are caseless symbols that are neither letters,
    digits nor white space.  The dictionaries kept by the two classes are
    [gmap]s keyed by text. *)

From Stdlib Require Import Ascii String List Arith Bool Lia.
From stdpp Require Import gmap strings list fin_maps sorting.

Abbreviation str := (list ascii) (only parsing).

(** Literals: [s "NATO"] is the text NATO. *)
Definition s (x : string) : list ascii := list_ascii_of_string x.

(** ** Characters *)
Module Chr.

Definition code (c : ascii) : nat := nat_of_ascii c.

Definition between (lo hi : nat) (c : ascii) : bool :=
  (lo <=? code c) && (code c <=? hi).

(** [c.isupper()], [c.islower()], [c.isalpha()], [c.isdigit()]. *)
Definition isupper (c : ascii) : bool := between 65 90 c.
Definition islower (c : ascii) : bool := between 97 122 c.
Definition isalpha (c : ascii) : bool := isupper c || islower c.
Definition isdigit (c : ascii) : bool := between 48 57 c.

(** White space as [str.strip], [str.split] and the regex class [\s]
    see it: TAB, LF, VT, FF, CR, the four separators FS GS RS US and the
    space. *)
Definition isspace (c : ascii) : bool :=
  between 9 13 c || between 28 32 c.

(** The regex class [\w]. *)
Definition isword (c : ascii) : bool :=
  isalpha c || isdigit c || Ascii.eqb c "_".

(** [c.lower()] and [c.upper()]. *)
Definition lower (c : ascii) : ascii :=
  if isupper c then ascii_of_nat (code c + 32) else c.
Definition upper (c : ascii) : ascii :=
  if islower c then ascii_of_nat (code c - 32) else c.

End Chr.

(** ** The [str] methods the scripts call *)
Module Py.

Fixpoint lstrip_by (p : ascii -> bool) (t : str) : str :=
  match t with
  | [] => []
  | c :: t' => if p c then lstrip_by p t' else t
  end.

Definition rstrip_by (p : ascii -> bool) (t : str) : str :=
  rev (lstrip_by p (rev t)).

(** [t.strip()] *)
Definition strip (t : str) : str :=
  rstrip_by Chr.isspace (lstrip_by Chr.isspace t).

(** [t.rstrip(chars)] *)
Definition rstrip_chars (chars : str) (t : str) : str :=
  rstrip_by (fun c => existsb (Ascii.eqb c) chars) t.

Definition starts_run (sep : ascii -> bool) (t : str) : bool :=
  match t with
  | c :: _ => negb (sep c)
  | [] => false
  end.

(** The maximal runs of characters that are not separators, in order. *)
Fixpoint runs (sep : ascii -> bool) (t : str) : list str :=
  match t with
  | [] => []
  | c :: t' =>
      if sep c then runs sep t'
      else if starts_run sep t' then
        match runs sep t' with
        | w :: ws => (c :: w) :: ws
        | [] => [[c]]
        end
      else [c] :: runs sep t'
  end.

(** A run: at least one character, and no separator in it. *)
Definition solid (sep : ascii -> bool) (w : str) : Prop :=
  w <> [] /\ Forall (fun c => sep c = false) w.

(** [t.split()]: the white-space separated words. *)
Definition split (t : str) : list str := runs Chr.isspace t.

(** [t.split(d)] for a one-character delimiter: never empty. *)
Fixpoint split_on (d : ascii) (t : str) : list str :=
  match t with
  | [] => [[]]
  | c :: t' =>
      if Ascii.eqb c d then [] :: split_on d t'
      else match split_on d t' with
           | w :: ws => (c :: w) :: ws
           | [] => [[c]]
           end
  end.

(** [sep.join(ws)] *)
Fixpoint join (sep : str) (ws : list str) : str :=
  match ws with
  | [] => []
  | w :: ws' =>
      match ws' with
      | [] => w
      | _ :: _ => w ++ sep ++ join sep ws'
      end
  end.

(** [t.isupper()]: some cased character, and no lowercase one. *)
Definition isupper (t : str) : bool :=
  existsb Chr.isupper t && negb (existsb Chr.islower t).

(** [t.isalpha()]: not empty and letters only. *)
Definition isalpha (t : str) : bool :=
  match t with
  | [] => false
  | _ :: _ => forallb Chr.isalpha t
  end.

Definition lower (t : str) : str := map Chr.lower t.
Definition upper (t : str) : str := map Chr.upper t.

Fixpoint startswith (p t : str) : bool :=
  match p, t with
  | [], _ => true
  | _ :: _, [] => false
  | a :: p', b :: t' => Ascii.eqb a b && startswith p' t'
  end.

Definition endswith (p t : str) : bool := startswith (rev p) (rev t).

(** [sub in t] *)
Fixpoint contains (sub t : str) : bool :=
  startswith sub t ||
  match t with
  | [] => false
  | _ :: t' => contains sub t'
  end.

(** [t.rfind(m)] for a one-character [m]; [None] stands for -1. *)
Fixpoint rfind (m : ascii) (t : str) : option nat :=
  match t with
  | [] => None
  | c :: t' =>
      match rfind m t' with
      | Some i => Some (S i)
      | None => if Ascii.eqb c m then Some 0 else None
      end
  end.

(** [t[i]], read only where the scripts have checked the range. *)
Definition at_ (t : str) (i : nat) : ascii := nth i t "000"%char.

(** [ws[-n:]]: the last [n] elements, and all of them when [n] is 0
    (the slice then starts at index -0 = 0). *)
Definition last_n {A} (n : nat) (ws : list A) : list A :=
  if n =? 0 then ws else drop (length ws - n) ws.

Definition mem (t : str) (l : list str) : bool :=
  existsb (fun x => bool_decide (x = t)) l.

(** [d[k] += 1], on a [defaultdict(int)] or after [d[k] = 0] for a key
    that was missing. *)
Definition incr (k : list ascii) (d : gmap (list ascii) nat)
  : gmap (list ascii) nat :=
  <[k := S (default 0 (d !! k))]> d.

End Py.

(** ** The regular expressions of the scripts

    A backtracking matcher in the list-of-successes style: a pattern maps a
    cursor (the character just before the position, and the text that
    remains) to the cursors it can stop at, the preferred one first, as
    Python's [re] tries them. *)
Module Re.

Definition cur : Type := option ascii * str.
Definition rx : Type := cur -> list cur.

Definition eps : rx := fun k => [k].
Definition fail : rx := fun _ => [].

(** One character of a class. *)
Definition one (p : ascii -> bool) : rx := fun k =>
  match snd k with
  | c :: t => if p c then [(Some c, t)] else []
  | [] => []
  end.

Definition lit (c : ascii) : rx := one (Ascii.eqb c).

Definition seq (a b : rx) : rx := fun k => flat_map b (a k).
Definition alt (a b : rx) : rx := fun k => a k ++ b k.

(** [a{lo,hi}], greedy. *)
Fixpoint rep (a : rx) (lo hi : nat) : rx :=
  match hi with
  | 0 => match lo with 0 => eps | S _ => fail end
  | S hi' =>
      match lo with
      | 0 => alt (seq a (rep a 0 hi')) eps
      | S lo' => seq a (rep a lo' hi')
      end
  end.

(** [a*] and [a+] for a pattern [a] that consumes a character: the text
    left bounds the number of rounds. *)
Definition star (a : rx) : rx := fun k => rep a 0 (length (snd k)) k.
Definition plus (a : rx) : rx := fun k => rep a 1 (length (snd k)) k.

Definition opt (a : rx) : rx := alt a eps.

(** [\b] *)
Definition wordb : rx := fun k =>
  let before := match fst k with Some c => Chr.isword c | None => false end in
  let after := match snd k with c :: _ => Chr.isword c | [] => false end in
  if xorb before after then [k] else [].

(** [(?=[...])] *)
Definition ahead (p : ascii -> bool) : rx := fun k =>
  match snd k with
  | c :: _ => if p c then [k] else []
  | [] => []
  end.

(** [$]: the end of the text, or just before a final newline. *)
Definition eol : rx := fun k =>
  match snd k with
  | [] => [k]
  | [c] => if Ascii.eqb c "010" then [k] else []
  | _ => []
  end.

(** The text consumed between two cursors of the same run. *)
Definition consumed (k k' : cur) : str :=
  take (length (snd k) - length (snd k')) (snd k).

(** [re.match(r, t)] as a truth value. *)
Definition matches (r : rx) (t : str) : bool :=
  match r (None, t) with
  | [] => false
  | _ :: _ => true
  end.

(** The scan shared by [re.finditer] and [re.findall]: try the pattern
    at the cursor; after a match go on from its end, otherwise move one
    character on.  [m] must consume at least one character when it
    succeeds, which every pattern of the scripts does, so [fuel] one
    above the length of the text is never exhausted. *)
Fixpoint scan {A} (fuel : nat) (m : cur -> option (A * cur)) (k : cur)
  : list A :=
  match fuel with
  | 0 => []
  | S f =>
      match m k with
      | Some (a, k') => a :: scan f m k'
      | None =>
          match snd k with
          | [] => []
          | c :: t => scan f m (Some c, t)
          end
      end
  end.

Definition find_all {A} (m : cur -> option (A * cur)) (t : str) : list A :=
  scan (S (length t)) m (None, t).

(** [re.sub(r, '', t)] under the same proviso. *)
Fixpoint erase (fuel : nat) (m : cur -> option cur) (k : cur) : str :=
  match fuel with
  | 0 => snd k
  | S f =>
      match m k with
      | Some k' => erase f m k'
      | None =>
          match snd k with
          | [] => []
          | c :: t => c :: erase f m (Some c, t)
          end
      end
  end.

Definition sub_empty (r : rx) (t : str) : str :=
  erase (S (length t)) (fun k => head (r k)) (None, t).

End Re.

(** ** The heading rules shared by the two [is_heading] methods *)
Module Heading.

(** [sum(1 for w in words if p(w))] *)
Fixpoint count_if {A} (p : A -> bool) (l : list A) : nat :=
  match l with
  | [] => 0
  | x :: l' => (if p x then 1 else 0) + count_if p l'
  end.

(** [w and len(w) > 0 and w[0].isupper()] *)
Definition starts_upper (w : str) : bool :=
  match w with
  | c :: _ => Chr.isupper c
  | [] => false
  end.

(** The line is all capitals and has between [lo] and [hi] words. *)
Definition all_caps (lo hi : nat) (line : str) (words : list str) : bool :=
  Py.isupper line && (lo <=? length words) && (length words <=? hi).

(** Between [lo] and [hi] words, at least 70% of them capitalised.
    [cap / n >= 0.7] is compared as [7 * n <= 10 * cap]: for the word
    counts admitted here no quotient is within rounding distance of
    0.7. *)
Definition title_case (lo hi : nat) (words : list str) : bool :=
  (lo <=? length words) && (length words <=? hi) &&
  (7 * length words <=? 10 * count_if starts_upper words).

(** The lowercased line starts with a heading keyword. *)
Definition keyword (keywords : list str) (line : str) : bool :=
  existsb (fun kw => Py.startswith kw (Py.lower line)) keywords.

(** [line.endswith(':')] *)
Definition colon (line : str) : bool := Py.endswith (s ":") line.

Definition is_roman_letter (c : ascii) : bool :=
  existsb (Ascii.eqb c) (s "IVXLCDM").

(** The pattern [^(\d+\.|\d+\.\d+|[IVXLCDM]+\.)\s+] *)
Definition numbering_rx : Re.rx :=
  Re.seq
    (Re.alt (Re.seq (Re.plus (Re.one Chr.isdigit)) (Re.lit "."))
    (Re.alt (Re.seq (Re.plus (Re.one Chr.isdigit))
               (Re.seq (Re.lit ".") (Re.plus (Re.one Chr.isdigit))))
            (Re.seq (Re.plus (Re.one is_roman_letter)) (Re.lit "."))))
    (Re.plus (Re.one Chr.isspace)).

Definition numbered (line : str) : bool := Re.matches numbering_rx line.

End Heading.

(** ** Mapping mode: [SchwartzHearstExtractor] *)
Module SW.

(** [self.stop_words] *)
Definition stop_words : list str :=
  map s ["the"; "a"; "an"; "and"; "or"; "of"; "for"; "in"; "on"; "at";
         "to"; "by"; "with"].

(** [self.heading_keywords] *)
Definition heading_keywords : list str :=
  map s ["chapter"; "section"; "part"; "article"; "annexure";
         "appendix"; "volume"; "abstract"; "introduction";
         "conclusion"; "summary"; "references"; "index";
         "contents"; "session"; "appendices"; "preface";
         "foreword"; "acknowledgment"; "bibliography"].

(** [is_heading]; the five rules in the order of the method. *)
Definition is_heading (line : str) : bool :=
  if (length line =? 0) || (length (Py.strip line) =? 0) then false
  else
    let line := Py.strip line in
    let words := Py.split line in
    if length words =? 0 then false
    else if Heading.all_caps 2 12 line words then true
    else if Heading.colon line then true
    else if Heading.numbered line then true
    else if Heading.title_case 2 8 words then true
    else if Heading.keyword heading_keywords line then true
    else false.

Definition newline : ascii := "010"%char.

(** [remove_headings_from_text] *)
Definition remove_headings_from_text (text : str) : str :=
  let lines := Py.split_on newline text in
  let clean_lines := List.filter (fun line => negb (is_heading line)) lines in
  Py.join [newline] clean_lines.

(** [len(set(text))] *)
Definition distinct (text : str) : nat := length (remove_dups text).

Definition false_positives : list str :=
  map s ["NO"; "YES"; "OK"; "AM"; "PM"; "AD"; "BC"].

(** [is_valid_acronym] *)
Definition is_valid_acronym (text : str) : bool :=
  if length text =? 0 then false
  else if negb (Py.isupper text) then false
  else if (length text <? 2) || (10 <? length text) then false
  else if negb (Py.isalpha text) then false
  else if (distinct text =? 1) && (length text <=? 2) then false
  else if Py.mem text false_positives then false
  else true.

(** [extract_min_max]: [None] is the pair [(None, None)].  The candidate
    is cut to its last [max_words] words in a local variable only; what
    comes back is the pair [(0, len(long_form))] of that local. *)
Definition max_words (short_form : str) : nat :=
  Nat.min (length short_form + 5) (length short_form * 2).

Definition extract_min_max (short_form long_form : str)
  : option (nat * nat) :=
  let sf_len := length short_form in
  let lf_len := length long_form in
  if lf_len <? sf_len then None
  else
    let lf_words := Py.split long_form in
    let long_form' :=
      if max_words short_form <? length lf_words
      then Py.join (s " ") (Py.last_n (max_words short_form) lf_words)
      else long_form in
    Some (0, length long_form').

(** The inner [while lf_index >= 0] loop.  [n] is [lf_index + 1]; the
    result is the new [lf_index + 1] when the character was found. *)
Fixpoint scan_back (long_form : str) (curr_char : ascii) (n : nat)
  : option nat :=
  match n with
  | 0 => None
  | S i =>
      if Ascii.eqb (Chr.lower (Py.at_ long_form i)) curr_char
      then Some i
      else scan_back long_form curr_char i
  end.

(** The outer [while sf_index >= 0] loop, over the short form read from
    its last character to its first. *)
Fixpoint match_back (long_form : str) (sf_rev : str) (n : nat)
  : option nat :=
  match sf_rev with
  | [] => Some n
  | c :: sf' =>
      match scan_back long_form (Chr.lower c) n with
      | None => None
      | Some n' => match_back long_form sf' n'
      end
  end.

(** [c in ' \t\n'] *)
Definition is_boundary (c : ascii) : bool :=
  existsb (Ascii.eqb c) [" "; "009"; "010"]%char.

(** The [while start_pos > 0 and ...] loop. *)
Fixpoint word_start (long_form : str) (start_pos : nat) : nat :=
  match start_pos with
  | 0 => 0
  | S i =>
      if is_boundary (Py.at_ long_form i) then start_pos
      else word_start long_form i
  end.

Definition find_best_long_form (short_form long_form_candidate : str)
  : option str :=
  let short_form := Py.strip short_form in
  let long_form := Py.strip long_form_candidate in
  match extract_min_max short_form long_form with
  | None => None
  | Some (min_idx, max_idx) =>
      match match_back long_form (rev short_form) (length long_form) with
      | None => None
      | Some n =>
          let start_pos := word_start long_form n in
          let matched_long_form := Py.strip (drop start_pos long_form) in
          if 0 <? length matched_long_form
          then Some matched_long_form else None
      end
  end.

(** The pattern [([^(]{0,200})\(([A-Z]{2,10})\)] at a cursor: the two
    groups of the preferred match, and the cursor after it. *)
Definition not_lparen (c : ascii) : bool := negb (Ascii.eqb c "(").

Definition candidate_rx (k : Re.cur) : option ((str * str) * Re.cur) :=
  head
    (flat_map (fun k1 =>
       flat_map (fun k2 =>
         flat_map (fun k3 =>
           map (fun k4 => ((Re.consumed k k1, Re.consumed k2 k3), k4))
               (Re.lit ")" k3))
           (Re.rep (Re.one Chr.isupper) 2 10 k2))
         (Re.lit "(" k1))
       (Re.rep (Re.one not_lparen) 0 200 k)).

Definition sentence_markers : str := s ".!?;:".

(** The [for marker in sentence_markers] loop with its [break]: the cut
    is made at the first marker of the list that occurs at all. *)
Fixpoint cut_at_marker (markers : str) (long_form_candidate : str) : str :=
  match markers with
  | [] => long_form_candidate
  | marker :: markers' =>
      match Py.rfind marker long_form_candidate with
      | Some last_pos => Py.strip (drop (S last_pos) long_form_candidate)
      | None => cut_at_marker markers' long_form_candidate
      end
  end.

(** The body of the [for match in re.finditer] loop: the candidate a
    match contributes, if any. *)
Definition candidate_of_match (groups : str * str) : option (str * str) :=
  let long_form_candidate := Py.strip (fst groups) in
  let short_form := Py.strip (snd groups) in
  if negb (is_valid_acronym short_form) then None
  else
    let long_form_candidate :=
      cut_at_marker sentence_markers long_form_candidate in
    if 0 <? length long_form_candidate
    then Some (short_form, long_form_candidate)
    else None.

(** [extract_candidates_from_parentheses] *)
Definition extract_candidates_from_parentheses (text : str)
  : list (str * str) :=
  omap candidate_of_match (Re.find_all candidate_rx text).

(** The [while words and ...: words.pop(0)] loop of [clean_long_form]. *)
Definition is_leading_noise (w : str) : bool :=
  Py.mem (Py.lower w) stop_words || negb (Heading.starts_upper w).

Fixpoint pop_leading (words : list str) : list str :=
  match words with
  | [] => []
  | w :: words' => if is_leading_noise w then pop_leading words' else words
  end.

(** [words[-1] = words[-1].rstrip('.,;:!?')] *)
Fixpoint rstrip_last (words : list str) : list str :=
  match words with
  | [] => []
  | w :: words' =>
      match words' with
      | [] => [Py.rstrip_chars (s ".,;:!?") w]
      | _ :: _ => w :: rstrip_last words'
      end
  end.

(** [clean_long_form] *)
Definition clean_long_form (long_form : str) : str :=
  if length long_form =? 0 then []
  else
    let words := Py.split long_form in
    let words := pop_leading words in
    let words := rstrip_last words in
    let result := Py.join (s " ") words in
    match result with
    | c :: rest => if Chr.islower c then Chr.upper c :: rest else result
    | [] => result
    end.

Definition verb_indicators : list str :=
  map s [" has "; " have "; " is "; " are "; " was "; " were ";
         " established "; " created "].

(** [any(indicator in long_form_lower ...)] *)
Definition has_verb_indicator (long_form : str) : bool :=
  existsb (fun indicator => Py.contains indicator (Py.lower long_form))
          verb_indicators.

(** [cap_count / len(words) < 0.4], compared as [5 * cap < 2 * n]: the
    quotient rounds to the literal 0.4 exactly when it equals 2/5. *)
Definition too_few_capitals (words : list str) : bool :=
  5 * Heading.count_if Heading.starts_upper words <? 2 * length words.

(** [''.join([w[0].upper() for w in words if w and w[0].isalpha()])] *)
Fixpoint initials_of (words : list str) : str :=
  match words with
  | [] => []
  | w :: words' =>
      match w with
      | c :: _ => if Chr.isalpha c then Chr.upper c :: initials_of words'
                  else initials_of words'
      | [] => initials_of words'
      end
  end.

(** The inner [while j < len(initials)] loop: the initials left after
    the cursor has moved, and whether the character was met. *)
Fixpoint advance (char : ascii) (initials : str) : bool * str :=
  match initials with
  | [] => (false, [])
  | i :: initials' =>
      if Ascii.eqb i char then (true, initials')
      else advance char initials'
  end.

(** The [for char in short_form] loop: the value of [matches]. *)
Fixpoint count_matches (short_form initials : str) : nat :=
  match short_form with
  | [] => 0
  | char :: short_form' =>
      let (found, initials') := advance char initials in
      (if found then 1 else 0) + count_matches short_form' initials'
  end.

(** [match_ratio < 0.3] with [match_ratio] 0 for an empty short form,
    compared as [10 * matches < 3 * len]. *)
Definition ratio_too_low (short_form initials : str) : bool :=
  if 0 <? length short_form
  then 10 * count_matches short_form initials <? 3 * length short_form
  else true.

(** [validate_long_form] *)
Definition validate_long_form (short_form long_form : str) : bool :=
  if length long_form <? 3 then false
  else
    let words := Py.split long_form in
    if length words <? 2 then false
    else if Py.isupper long_form && (3 <=? length words) then false
    else if has_verb_indicator long_form then false
    else if too_few_capitals words then false
    else
      let initials := initials_of words in
      if (2 <=? length initials) && ratio_too_low short_form initials
      then false
      else true.

(** The three dictionaries of the extractor. *)
Record state : Type := State {
  acronym_mappings : gmap (list ascii) (list ascii);
  acronym_frequencies : gmap (list ascii) nat;
  standalone_acronyms : gmap (list ascii) nat
}.

Definition empty_state : state := State ∅ ∅ ∅.

(** Lines 354-359: keep the first long form, count every occurrence. *)
Definition store (st : state) (short_form long_form : str) : state :=
  let mappings :=
    match acronym_mappings st !! short_form with
    | None => <[short_form := long_form]> (acronym_mappings st)
    | Some _ => acronym_mappings st
    end in
  State mappings (Py.incr short_form (acronym_frequencies st))
        (standalone_acronyms st).

(** The body of the [for short_form, long_form_candidate in candidates]
    loop: [Some] is a pair that reaches the store, [None] a [continue]. *)
Definition accepted (candidate : str * str) : option (str * str) :=
  let (short_form, long_form_candidate) := candidate in
  match find_best_long_form short_form long_form_candidate with
  | None => None
  | Some long_form =>
      let long_form := clean_long_form long_form in
      if validate_long_form short_form long_form
      then Some (short_form, long_form)
      else None
  end.

Definition candidate_step (st : state) (candidate : str * str) : state :=
  match accepted candidate with
  | Some (short_form, long_form) => store st short_form long_form
  | None => st
  end.

(** The pattern [\b[A-Z]{2,10}\b] at a cursor. *)
Definition token_rx (k : Re.cur) : option (str * Re.cur) :=
  head (map (fun k' => (Re.consumed k k', k'))
            (Re.seq Re.wordb
               (Re.seq (Re.rep (Re.one Chr.isupper) 2 10) Re.wordb) k)).

(** The body of the [for acronym in all_acronyms] loop. *)
Definition standalone_step (st : state) (acronym : str) : state :=
  if is_valid_acronym acronym then
    match acronym_mappings st !! acronym with
    | None =>
        State (acronym_mappings st) (acronym_frequencies st)
              (Py.incr acronym (standalone_acronyms st))
    | Some _ => st
    end
  else st.

(** [extract_acronyms] *)
Definition extract_acronyms (st : state) (text : str) : state :=
  let text := remove_headings_from_text text in
  let candidates := extract_candidates_from_parentheses text in
  let st := fold_left candidate_step candidates st in
  let all_acronyms := Re.find_all token_rx text in
  fold_left standalone_step all_acronyms st.

(** [process_pdf], given the text the PDF reader returned: an empty
    text leaves the extractor as it was. *)
Definition process_pdf (st : state) (text : str) : state :=
  if length text =? 0 then st else extract_acronyms st text.

(** [process_all_pdfs] over the texts of the files, in order. *)
Definition process_all_pdfs (st : state) (texts : list str) : state :=
  fold_left process_pdf texts st.

End SW.

(** ** Vocabulary mode: [NavalDocumentProcessor] *)
Module AC.

(** [self.heading_keywords] *)
Definition heading_keywords : list str :=
  map s ["chapter"; "section"; "part"; "article"; "annexure";
         "appendix"; "volume"; "abstract"; "introduction";
         "conclusion"; "summary"; "references"; "index"; "contents"].

(** [self.known_mixed_acronyms] *)
Definition known_mixed_acronyms : list str :=
  map s ["phd"; "mba"; "latex"; "mysql"; "postgresql"; "javascript";
         "iphone"; "ipad"; "ipod"; "macbook"; "ios"; "macos";
         "ebay"; "etsy"; "paypal"; "linkedin"; "youtube";
         "mphil"; "btech"; "mtech"].

(** A letter of [self.roman_pattern], which ignores case. *)
Definition ilit (c : ascii) : Re.rx :=
  Re.one (fun x => Ascii.eqb (Chr.upper x) c).

Definition iword (w : string) : Re.rx :=
  fold_right (fun c r => Re.seq (ilit c) r) Re.eps (s w).

(** [^(?=[MDCLXVI])M{0,3}(CM|CD|D?C{0,3})(XC|XL|L?X{0,3})(IX|IV|V?I{0,3})$] *)
Definition roman_pattern : Re.rx :=
  Re.seq (Re.ahead (fun x => existsb (Ascii.eqb (Chr.upper x)) (s "MDCLXVI")))
 (Re.seq (Re.rep (ilit "M") 0 3)
 (Re.seq (Re.alt (iword "CM") (Re.alt (iword "CD")
            (Re.seq (Re.opt (ilit "D")) (Re.rep (ilit "C") 0 3))))
 (Re.seq (Re.alt (iword "XC") (Re.alt (iword "XL")
            (Re.seq (Re.opt (ilit "L")) (Re.rep (ilit "X") 0 3))))
 (Re.seq (Re.alt (iword "IX") (Re.alt (iword "IV")
            (Re.seq (Re.opt (ilit "V")) (Re.rep (ilit "I") 0 3))))
         Re.eol)))).

(** [any(word[i].isupper() and word[i+1].isupper() ...)] *)
Fixpoint has_consecutive_caps (word : str) : bool :=
  match word with
  | a :: ((b :: _) as word') =>
      (Chr.isupper a && Chr.isupper b) || has_consecutive_caps word'
  | _ => false
  end.

(** [_is_acronym] *)
Definition _is_acronym (word : str) : bool :=
  if Py.mem (Py.lower word) known_mixed_acronyms then true
  else if Py.isupper word && (2 <=? length word) then true
  else
    let upper_count := Heading.count_if Chr.isupper word in
    if (2 <=? upper_count) && (length word <=? 6) then true
    else if (3 <=? length word) && (2 <=? upper_count)
            && has_consecutive_caps word then true
    else false.

(** [is_heading]; the five rules in the order of the method. *)
Definition is_heading (text_line : str) : bool :=
  if (length text_line =? 0) || (length (Py.strip text_line) =? 0)
  then false
  else
    let text_line := Py.strip text_line in
    let words := Py.split text_line in
    if length words =? 0 then false
    else if Heading.all_caps 0 12 text_line words then true
    else if Heading.title_case 2 6 words then true
    else if Heading.keyword heading_keywords text_line then true
    else if Heading.colon text_line then true
    else if Heading.numbered text_line then true
    else false.

(** The line filter of [extract_text_from_pdf], given the text of each
    page: trimmed lines, the empty ones dropped. *)
Definition extract_lines (pages : list str) : list str :=
  List.filter (fun line => 0 <? length line)
    (map Py.strip (flat_map (Py.split_on "010") pages)).

(** The pattern [\s*\([^)]*\)] *)
Definition parenthetical_rx : Re.rx :=
  Re.seq (Re.star (Re.one Chr.isspace))
 (Re.seq (Re.lit "(")
 (Re.seq (Re.star (Re.one (fun c => negb (Ascii.eqb c ")"))))
         (Re.lit ")"))).

(** The pattern [\b[a-zA-Z]{2,}\b] at a cursor. *)
Definition word_rx (k : Re.cur) : option (str * Re.cur) :=
  head (map (fun k' => (Re.consumed k k', k'))
            (Re.seq Re.wordb
               (Re.seq (Re.seq (Re.one Chr.isalpha)
                               (Re.plus (Re.one Chr.isalpha)))
                       Re.wordb) k)).

(** [word.isascii()] *)
Definition isascii (word : str) : bool :=
  forallb (fun c => Chr.code c <? 128) word.

(** The two dictionaries of the processor. *)
Record state : Type := State {
  lowercase_seen : gmap (list ascii) nat;
  standalone_acronyms_seen : gmap (list ascii) nat
}.

Definition empty_state : state := State ∅ ∅.

Section Processor.

(** [self.stop_words], the English stop words of NLTK. *)
Variable stop_words : list str.

(** The body of the [for word in words] loop of
    [extract_words_from_text], on the pair of the processor and the
    local list [lowercase_words]. *)
Definition word_step (acc : state * list str) (word : str)
  : state * list str :=
  let (st, lowercase_words) := acc in
  if negb (Py.isalpha word) || negb (isascii word)
     || Re.matches roman_pattern word
  then acc
  else if Py.mem (Py.lower word) stop_words then acc
  else if _is_acronym word then
    (State (lowercase_seen st)
           (Py.incr word (standalone_acronyms_seen st)),
     lowercase_words)
  else (st, lowercase_words ++ [Py.lower word]).

(** The body of the [for line in lines] loop. *)
Definition line_step (acc : state * list str) (line : str)
  : state * list str :=
  if is_heading line then acc
  else
    let cleaned_line := Re.sub_empty parenthetical_rx line in
    let words := Re.find_all word_rx cleaned_line in
    fold_left word_step words acc.

(** [extract_words_from_text] *)
Definition extract_words_from_text (st : state) (lines : list str)
  : state * list str :=
  fold_left line_step lines (st, []).

(** [update_word_data] *)
Definition update_word_data (st : state) (lowercase_words : list str)
  : state :=
  fold_left
    (fun st word =>
       State (Py.incr word (lowercase_seen st))
             (standalone_acronyms_seen st))
    lowercase_words st.

(** [process_pdf], given the lines the PDF reader returned. *)
Definition process_pdf (st : state) (lines : list str) : state :=
  if length lines =? 0 then st
  else
    let (st, lowercase_words) := extract_words_from_text st lines in
    if (length lowercase_words =? 0)
       && (size (standalone_acronyms_seen st) =? 0)
    then st
    else update_word_data st lowercase_words.

(** [process_all_documents] over the lines of the files, in order. *)
Definition process_all_documents (st : state) (docs : list (list str))
  : state :=
  fold_left process_pdf docs st.

End Processor.

End AC.

(** ** What the specification says, for comparison with the code *)
Module Claimed.

Definition is_marker (c : ascii) : bool :=
  existsb (Ascii.eqb c) SW.sentence_markers.

(** The text after the last sentence-boundary mark, whichever of the
    five marks it is; [None] when the text has none. *)
Fixpoint after_last_marker (t : str) : option str :=
  match t with
  | [] => None
  | c :: t' =>
      match after_last_marker t' with
      | Some r => Some r
      | None => if is_marker c then Some t' else None
      end
  end.

(** The clause kept as long-form candidate. *)
Definition clause (t : str) : str :=
  match after_last_marker t with
  | Some r => Py.strip r
  | None => t
  end.

(** The candidate bounded to its last [max_words] words. *)
Definition bounded (short_form long_form : str) : str :=
  let lf_words := Py.split long_form in
  if SW.max_words short_form <? length lf_words
  then Py.join (s " ") (Py.last_n (SW.max_words short_form) lf_words)
  else long_form.

(** The first long form recorded for a short form in a sequence of
    validated pairs, and the number of pairs with that short form. *)
Fixpoint first_long_form (short_form : str) (pairs : list (str * str))
  : option str :=
  match pairs with
  | [] => None
  | (sf, lf) :: pairs' =>
      if bool_decide (sf = short_form) then Some lf
      else first_long_form short_form pairs'
  end.

Fixpoint occurrences (short_form : str) (pairs : list (str * str)) : nat :=
  match pairs with
  | [] => 0
  | (sf, _) :: pairs' =>
      (if bool_decide (sf = short_form) then 1 else 0)
      + occurrences short_form pairs'
  end.

(** What C10 says of a stored long form: not empty, a capital first,
    and a first word that is no stop word once lowercased. *)
Definition well_formed (long_form : str) : Prop :=
  long_form <> []
  /\ Heading.starts_upper long_form = true
  /\ exists w ws, Py.split long_form = w :: ws
                  /\ Py.mem (Py.lower w) SW.stop_words = false.

Definition all_well_formed (m : gmap (list ascii) (list ascii)) : Prop :=
  forall k v, m !! k = Some v -> well_formed v.

(** A counter read with 0 for a missing key. *)
Definition count (d : gmap (list ascii) nat) (k : str) : nat :=
  default 0 (d !! k).

(** Monotone change of a counter table: no key is lost and no count
    goes down. *)
Definition counts_grow (d d' : gmap (list ascii) nat) : Prop :=
  forall k n, d !! k = Some n -> exists n', d' !! k = Some n' /\ n <= n'.

(** Monotone change of the mapping table: every entry stays as it is. *)
Definition entries_kept (m m' : gmap (list ascii) (list ascii)) : Prop :=
  forall k v, m !! k = Some v -> m' !! k = Some v.

Definition sw_grows (st st' : SW.state) : Prop :=
  entries_kept (SW.acronym_mappings st) (SW.acronym_mappings st') /\
  counts_grow (SW.acronym_frequencies st) (SW.acronym_frequencies st') /\
  counts_grow (SW.standalone_acronyms st) (SW.standalone_acronyms st').

Definition ac_grows (st st' : AC.state) : Prop :=
  counts_grow (AC.lowercase_seen st) (AC.lowercase_seen st') /\
  counts_grow (AC.standalone_acronyms_seen st)
              (AC.standalone_acronyms_seen st').

End Claimed.

(** ** Worked inputs *)
Module Ex.

Definition nato_clause : str := s "the North Atlantic Treaty Organization".
Definition nato_full : str := s "North Atlantic Treaty Organization".

Definition chapter_line : str := s "CHAPTER 1: INTRODUCTION".

(** A candidate of seven words for a short form whose bound is four. *)
Definition seven_words : str := s "Alpha Beta one two three four five".

(** A clause with two different sentence marks before the acronym. *)
Definition two_marks : str :=
  s "See the note. Then: the North Atlantic Treaty Organization (NATO)".

(** Two documents: RD used on its own, then RD defined. *)
Definition rd_alone : str :=
  s "the RD unit works well every day of the week".
Definition rd_defined : str :=
  s "we study the Research And Development (RD) program today at length".

End Ex.

(** ** The rows handed to the CSV writer by [save_results] and [save_to_csv] *)
Module Out.

(** The order [sorted] uses on text: code point by code point, a proper
    prefix first. *)
Fixpoint str_leb (a b : str) : bool :=
  match a, b with
  | [], _ => true
  | _ :: _, [] => false
  | x :: a', y :: b' =>
      (Chr.code x <? Chr.code y)
      || ((Chr.code x =? Chr.code y) && str_leb a' b')
  end.

Definition str_le (a b : str) : Prop := str_leb a b = true.

#[global] Instance str_le_dec : RelDecision str_le :=
  fun a b => decide (str_leb a b = true).

(** [sorted(d.keys())] *)
Definition sorted_keys {V : Type} (d : gmap (list ascii) V) : list str :=
  merge_sort str_le (map_to_list d).*1.

(** The rows of a counter table, one per key in sorted order: the key and
    its frequency.  The three counter files are written this way. *)
Definition count_rows (d : gmap (list ascii) nat) : list (str * nat) :=
  map (fun k => (k, default 0 (d !! k))) (sorted_keys d).

(** The rows of [acronym_mappings.csv]: acronym, full form, frequency.
    The full form is read under a key of the table it comes from; the
    frequency is read from a [defaultdict], which answers 0 for a key it
    does not have. *)
Definition mapping_rows (st : SW.state) : list (str * str * nat) :=
  map (fun k => (k, default [] (SW.acronym_mappings st !! k),
                 default 0 (SW.acronym_frequencies st !! k)))
      (sorted_keys (SW.acronym_mappings st)).

End Out.

(** ** [safe_delete]

    The file system is outside the program: a run of the loop is modelled
    against what each attempt meets there, attempt by attempt. *)
Module Del.

(** What one attempt meets. *)
Inductive outcome : Type :=
| Absent
| Removed
| Locked
| Failed.

(** What the function does that the outside can see: the file is removed,
    the process sleeps, an error is printed. *)
Inductive action : Type :=
| Delete
| Sleep (delay : nat)
| Report.

(** The [for attempt in range(retries)] loop from attempt number
    [attempt] on, with [remaining] rounds left.  [Absent] is
    [os.path.exists] answering no, [Removed] is [chmod] and [remove]
    going through, [Locked] is a [PermissionError], [Failed] any other
    exception. *)
Fixpoint attempts (world : nat -> outcome) (delay attempt remaining : nat)
  : list action :=
  match remaining with
  | 0 => []
  | S remaining' =>
      match world attempt with
      | Absent => []
      | Removed => [Delete]
      | Locked => Sleep delay :: attempts world delay (S attempt) remaining'
      | Failed => [Report]
      end
  end.

Definition safe_delete (world : nat -> outcome) (retries delay : nat)
  : list action :=
  attempts world delay 0 retries.

(** The time spent in [time.sleep]. *)
Fixpoint slept (trace : list action) : nat :=
  match trace with
  | [] => 0
  | Sleep d :: trace' => d + slept trace'
  | _ :: trace' => slept trace'
  end.

End Del.

(** ** Invariants of the tables *)
Module Inv.

(** Every key of a table is a valid acronym. *)
Definition keys_valid {V : Type} (d : gmap (list ascii) V) : Prop :=
  forall k, is_Some (d !! k) -> SW.is_valid_acronym k = true.

(** No counter of a table is 0. *)
Definition positive (d : gmap (list ascii) nat) : Prop :=
  forall k n, d !! k = Some n -> 1 <= n.

(** Two tables have the same keys. *)
Definition same_keys {V W : Type} (m : gmap (list ascii) V) (d : gmap (list ascii) W)
  : Prop :=
  forall k, is_Some (m !! k) <-> is_Some (d !! k).

(** Every stored pair passes the validator. *)
Definition validated (m : gmap (list ascii) (list ascii)) : Prop :=
  forall k v, m !! k = Some v -> SW.validate_long_form k v = true.

Definition sw_ok (st : SW.state) : Prop :=
  same_keys (SW.acronym_mappings st) (SW.acronym_frequencies st)
  /\ positive (SW.acronym_frequencies st)
  /\ positive (SW.standalone_acronyms st)
  /\ keys_valid (SW.acronym_mappings st)
  /\ keys_valid (SW.standalone_acronyms st)
  /\ validated (SW.acronym_mappings st).

(** A key of the lowercase table: counted at least once, made of
    lowercase letters only, and no stop word. *)
Definition lowercase_key (stop_words : list str) (k : str) (n : nat) : Prop :=
  1 <= n /\ k <> [] /\ Forall (fun c => Chr.islower c = true) k
  /\ Py.mem k stop_words = false.

(** A key of the standalone table of vocabulary mode: counted at least
    once, alphabetic, an acronym for [_is_acronym], no stop word and no
    Roman numeral. *)
Definition standalone_key (stop_words : list str) (k : str) (n : nat) : Prop :=
  1 <= n /\ Py.isalpha k = true /\ AC._is_acronym k = true
  /\ Py.mem (Py.lower k) stop_words = false
  /\ Re.matches AC.roman_pattern k = false.

Definition ac_ok (stop_words : list str) (st : AC.state) : Prop :=
  (forall k n, AC.lowercase_seen st !! k = Some n ->
               lowercase_key stop_words k n)
  /\ (forall k n, AC.standalone_acronyms_seen st !! k = Some n ->
                  standalone_key stop_words k n).

End Inv.

(** * Properties *)

(** ** The matcher *)

(** C1 does not hold of the code: for NATO and the clause "the North
    Atlantic Treaty Organization" the matcher does not return the
    four-word long form. *)
Lemma nato_not_four_words :
  ~ (SW.find_best_long_form (s "NATO") Ex.nato_clause = Some Ex.nato_full
     /\ SW.validate_long_form (s "NATO") Ex.nato_full = true).
Proof. intros [H _]. vm_compute in H. discriminate. Qed.

(** C1 at the failing input: the backward scan takes the first n, a, t
    and o it meets, all inside the last word, where the Schwartz-Hearst
    matching that the docstrings announce wants the first letter of the
    short form at the start of a word.  The matcher so returns
    "Organization"; cleaning leaves it as it is and the validator rejects
    it, so the definition of NATO is lost.  The validator does accept
    "North Atlantic Treaty Organization" for NATO. *)
Theorem nato_last_word :
  SW.find_best_long_form (s "NATO") Ex.nato_clause = Some (s "Organization")
  /\ SW.clean_long_form (s "Organization") = s "Organization"
  /\ SW.validate_long_form (s "NATO") (s "Organization") = false
  /\ SW.accepted (s "NATO", Ex.nato_clause) = None
  /\ SW.validate_long_form (s "NATO") Ex.nato_full = true.
Proof. repeat split; vm_compute; reflexivity. Qed.

(** C3 at a failing input: the bound for "AB" is four words and the
    candidate has seven; [extract_min_max] measures the four-word cut (19
    characters), yet the scan runs over all seven words and returns them
    all, where the bounded candidate has no match. *)
Theorem candidate_not_bounded :
  SW.max_words (s "AB") = 4
  /\ length (Py.split Ex.seven_words) = 7
  /\ Claimed.bounded (s "AB") Ex.seven_words = s "two three four five"
  /\ SW.extract_min_max (s "AB") Ex.seven_words = Some (0, 19)
  /\ SW.find_best_long_form (s "AB") Ex.seven_words = Some Ex.seven_words
  /\ SW.find_best_long_form (s "AB") (Claimed.bounded (s "AB") Ex.seven_words)
     = None.
Proof. repeat split; vm_compute; reflexivity. Qed.

(** C8: a candidate that, once trimmed, is shorter than the trimmed short
    form gives no match. *)
Theorem shorter_candidate_no_match (short_form long_form_candidate : str) :
  length (Py.strip long_form_candidate) < length (Py.strip short_form) ->
  SW.find_best_long_form short_form long_form_candidate = None.
Proof.
  intros Hlt. unfold SW.find_best_long_form, SW.extract_min_max.
  apply Nat.ltb_lt in Hlt. rewrite Hlt. reflexivity.
Qed.

Lemma shorter_candidate_no_match_witness :
  length (Py.strip (s " UN ")) < length (Py.strip (s "NATO"))
  /\ SW.find_best_long_form (s "NATO") (s " UN ") = None.
Proof.
  split.
  - vm_compute. lia.
  - apply (shorter_candidate_no_match (s "NATO") (s " UN ")).
    vm_compute. lia.
Defined.

(** ** The candidate extractor *)

(** C5 at a failing input: the clause holds a full stop and, after it, a
    colon.  The loop cuts at the full stop and leaves, so the candidate
    still begins with "Then:"; the text after the last mark is "the North
    Atlantic Treaty Organization". *)
Theorem cut_stops_at_first_marker_kind :
  SW.is_heading Ex.two_marks = false
  /\ SW.extract_candidates_from_parentheses
       (SW.remove_headings_from_text Ex.two_marks)
     = [(s "NATO", s "Then: the North Atlantic Treaty Organization")]
  /\ Claimed.clause
       (s "See the note. Then: the North Atlantic Treaty Organization")
     = s "the North Atlantic Treaty Organization".
Proof. repeat split; vm_compute; reflexivity. Qed.

(** ** The validator *)

(** C6, as stated, fails: the verb marker " is " does not occur in "is the
    best", which has no space before its first word. *)
Lemma is_the_best_has_no_verb_marker :
  ~ (forall short_form,
       SW.validate_long_form short_form (s "is the best") = false
       /\ Py.contains (s " is ") (Py.lower (s "is the best")) = true
       /\ SW.too_few_capitals (Py.split (s "is the best")) = true).
Proof. intros H. destruct (H []) as (_ & H2 & _). vm_compute in H2. discriminate. Qed.

(** C6, amended: whatever the short form, "is the best" is rejected,
    because none of its three words is capitalised; no verb marker occurs
    in it. *)
Theorem is_the_best_rejected (short_form : str) :
  SW.validate_long_form short_form (s "is the best") = false
  /\ SW.has_verb_indicator (s "is the best") = false
  /\ Heading.count_if Heading.starts_upper (Py.split (s "is the best")) = 0
  /\ length (Py.split (s "is the best")) = 3
  /\ SW.too_few_capitals (Py.split (s "is the best")) = true.
Proof. repeat split; vm_compute; reflexivity. Qed.

(** ** The aggregator across documents *)

(** C2 at a failing input: RD is counted as standalone in a first
    document and defined in a second one; after both it is a key of the
    mapping table and of the standalone table. *)
Theorem standalone_then_defined :
  let st := SW.process_all_pdfs SW.empty_state [Ex.rd_alone; Ex.rd_defined] in
  SW.acronym_mappings st !! s "RD" = Some (s "Research And Development")
  /\ SW.standalone_acronyms st !! s "RD" = Some 1
  /\ s "RD" ∈ dom (SW.acronym_mappings st) ∩ dom (SW.standalone_acronyms st).
Proof.
  cbv zeta.
  assert (H1 : SW.acronym_mappings
                 (SW.process_all_pdfs SW.empty_state [Ex.rd_alone; Ex.rd_defined])
               !! s "RD" = Some (s "Research And Development"))
    by (vm_compute; reflexivity).
  assert (H2 : SW.standalone_acronyms
                 (SW.process_all_pdfs SW.empty_state [Ex.rd_alone; Ex.rd_defined])
               !! s "RD" = Some 1)
    by (vm_compute; reflexivity).
  split; [exact H1 | split; [exact H2 |]].
  apply elem_of_intersection; split; apply elem_of_dom; eauto.
Qed.

(** ** Headings *)

Lemma split_on_nonempty (d : ascii) (t : str) : Py.split_on d t <> [].
Proof.
  destruct t as [|c t]; simpl; [discriminate|].
  destruct (Ascii.eqb c d); [discriminate|].
  destruct (Py.split_on d t); discriminate.
Qed.

(** Splitting at a delimiter splits the lines on either side of it. *)
Lemma split_on_app (d : ascii) (a b : str) :
  Py.split_on d (a ++ d :: b) = Py.split_on d a ++ Py.split_on d b.
Proof.
  induction a as [|c a IH]; simpl.
  - rewrite Ascii.eqb_refl. reflexivity.
  - destruct (Ascii.eqb c d); [now rewrite IH|].
    rewrite IH. pose proof (split_on_nonempty d a) as Hne.
    destruct (Py.split_on d a); [contradiction|reflexivity].
Qed.

Lemma sw_lines_without (line : str) (before after : str) :
  Py.split_on SW.newline line = [line] ->
  SW.is_heading line = true ->
  SW.remove_headings_from_text (before ++ SW.newline :: line ++ SW.newline :: after)
  = SW.remove_headings_from_text (before ++ SW.newline :: after).
Proof.
  intros Hone Hhead. unfold SW.remove_headings_from_text.
  rewrite !split_on_app, Hone. rewrite !List.filter_app. simpl.
  rewrite Hhead. reflexivity.
Qed.

(** C7, as stated, fails: the line does not end with a colon, so the
    colon rule does not hold of it. *)
Lemma chapter_line_no_colon :
  ~ (SW.is_heading Ex.chapter_line = true
     /\ AC.is_heading Ex.chapter_line = true
     /\ Heading.keyword SW.heading_keywords Ex.chapter_line = true
     /\ Heading.keyword AC.heading_keywords Ex.chapter_line = true
     /\ Heading.colon Ex.chapter_line = true).
Proof. intros (_ & _ & _ & _ & H). vm_compute in H. discriminate. Qed.

(** C7, amended: "CHAPTER 1: INTRODUCTION" is a heading in both modes;
    the all-capitals rule and the keyword rule hold of it, the colon rule
    does not.  In mapping mode the line is dropped from the text wherever
    it stands, so extraction proceeds as if it were absent; in vocabulary
    mode the line loop skips it. *)
Theorem chapter_line_is_heading :
  SW.is_heading Ex.chapter_line = true
  /\ AC.is_heading Ex.chapter_line = true
  /\ Heading.all_caps 2 12 Ex.chapter_line (Py.split Ex.chapter_line) = true
  /\ Heading.all_caps 0 12 Ex.chapter_line (Py.split Ex.chapter_line) = true
  /\ Heading.keyword SW.heading_keywords Ex.chapter_line = true
  /\ Heading.keyword AC.heading_keywords Ex.chapter_line = true
  /\ Heading.colon Ex.chapter_line = false
  /\ SW.remove_headings_from_text Ex.chapter_line = []
  /\ (forall st, SW.extract_acronyms st Ex.chapter_line = st)
  /\ (forall st before after,
        SW.extract_acronyms st
          (before ++ SW.newline :: Ex.chapter_line ++ SW.newline :: after)
        = SW.extract_acronyms st (before ++ SW.newline :: after))
  /\ (forall stop_words st before after,
        AC.extract_words_from_text stop_words st
          (before ++ Ex.chapter_line :: after)
        = AC.extract_words_from_text stop_words st (before ++ after)).
Proof.
  assert (Hsw : SW.is_heading Ex.chapter_line = true) by (vm_compute; reflexivity).
  assert (Hac : AC.is_heading Ex.chapter_line = true) by (vm_compute; reflexivity).
  assert (Hrm : SW.remove_headings_from_text Ex.chapter_line = [])
    by (vm_compute; reflexivity).
  split; [exact Hsw|]. split; [exact Hac|].
  do 5 (split; [vm_compute; reflexivity|]).
  split; [exact Hrm|].
  split; [|split].
  - intros st. unfold SW.extract_acronyms. rewrite Hrm. reflexivity.
  - intros st before after. unfold SW.extract_acronyms.
    rewrite (sw_lines_without Ex.chapter_line before after);
      [reflexivity | vm_compute; reflexivity | exact Hsw].
  - intros stop_words st before after. unfold AC.extract_words_from_text.
    rewrite !fold_left_app. simpl. unfold AC.line_step at 2.
    rewrite Hac. reflexivity.
Qed.

(** ** First occurrence wins *)

Lemma candidate_loop_as_store (candidates : list (str * str)) (st : SW.state) :
  fold_left SW.candidate_step candidates st
  = fold_left (fun st p => SW.store st (fst p) (snd p))
              (omap SW.accepted candidates) st.
Proof.
  revert st. induction candidates as [|c cs IH]; intros st; [reflexivity|].
  simpl. unfold SW.candidate_step at 2.
  destruct (SW.accepted c) as [[sf lf]|]; simpl; apply IH.
Qed.

Lemma count_incr (d : gmap (list ascii) nat) (k k' : str) :
  Claimed.count (Py.incr k d) k'
  = Claimed.count d k' + (if bool_decide (k = k') then 1 else 0).
Proof.
  unfold Claimed.count, Py.incr. case_bool_decide as Hk.
  - subst. rewrite lookup_insert_eq. simpl. lia.
  - rewrite lookup_insert_ne by exact Hk. lia.
Qed.

Lemma store_all_spec (pairs : list (str * str)) (st : SW.state) (sf : str) :
  let st' := fold_left (fun st p => SW.store st (fst p) (snd p)) pairs st in
  SW.acronym_mappings st' !! sf
  = match SW.acronym_mappings st !! sf with
    | Some lf => Some lf
    | None => Claimed.first_long_form sf pairs
    end
  /\ Claimed.count (SW.acronym_frequencies st') sf
     = Claimed.count (SW.acronym_frequencies st) sf + Claimed.occurrences sf pairs.
Proof.
  cbv zeta. revert st.
  induction pairs as [|[k lf] pairs IH]; intros st; simpl.
  - split; [destruct (_ !! sf); reflexivity | lia].
  - destruct (IH (SW.store st k lf)) as [IHm IHf]. rewrite IHm, IHf. clear IHm IHf.
    unfold SW.store; simpl. rewrite count_incr.
    case_bool_decide as Hk.
    + subst k. split; [|lia].
      destruct (SW.acronym_mappings st !! sf) as [v|] eqn:Hm.
      * rewrite Hm. reflexivity.
      * rewrite lookup_insert_eq. reflexivity.
    + split; [|lia].
      destruct (SW.acronym_mappings st !! k) as [v|] eqn:Hm.
      * reflexivity.
      * rewrite lookup_insert_ne by exact Hk. reflexivity.
Qed.

(** C4: after the candidate loop the mapping of a short form is the one
    it had before or, failing that, the first validated long form for it;
    later ones never replace it.  Its frequency has gone up by the number
    of validated pairs with that short form.  Starting from the empty
    extractor, any sequence of validated pairs leaves each short form with
    its first long form and with the number of its pairs as frequency; two
    pairs for one short form leave the first long form with frequency 2. *)
Theorem first_long_form_wins
    (st : SW.state) (candidates : list (str * str)) (short_form : str) :
  let validated := omap SW.accepted candidates in
  let st' := fold_left SW.candidate_step candidates st in
  SW.acronym_mappings st' !! short_form
  = match SW.acronym_mappings st !! short_form with
    | Some lf => Some lf
    | None => Claimed.first_long_form short_form validated
    end
  /\ Claimed.count (SW.acronym_frequencies st') short_form
     = Claimed.count (SW.acronym_frequencies st) short_form
       + Claimed.occurrences short_form validated
  /\ (forall pairs : list (str * str),
        let st' := fold_left (fun st p => SW.store st (fst p) (snd p)) pairs
                             SW.empty_state in
        SW.acronym_mappings st' !! short_form
        = Claimed.first_long_form short_form pairs
        /\ Claimed.count (SW.acronym_frequencies st') short_form
           = Claimed.occurrences short_form pairs)
  /\ (forall lf1 lf2,
        let st2 := SW.store (SW.store SW.empty_state short_form lf1)
                            short_form lf2 in
        SW.acronym_mappings st2 !! short_form = Some lf1
        /\ SW.acronym_frequencies st2 !! short_form = Some 2).
Proof.
  cbv zeta. rewrite candidate_loop_as_store.
  destruct (store_all_spec (omap SW.accepted candidates) st short_form) as [Hm Hf].
  split; [exact Hm | split; [exact Hf | split]].
  { intros pairs.
    destruct (store_all_spec pairs SW.empty_state short_form) as [Hm' Hf'].
    cbv zeta in Hm', Hf'. rewrite Hm', Hf'. simpl.
    unfold Claimed.count. rewrite !lookup_empty. split; reflexivity. }
  intros lf1 lf2. unfold SW.store, SW.empty_state, Py.incr; simpl.
  rewrite lookup_empty, !lookup_insert_eq. simpl.
  rewrite lookup_empty. split; reflexivity.
Qed.

(** ** The state only grows *)

Section FoldGrowth.

Context {St A : Type} (R : St -> St -> Prop) (f : St -> A -> St).
Hypothesis R_refl : forall x, R x x.
Hypothesis R_trans : forall x y z, R x y -> R y z -> R x z.
Hypothesis f_grows : forall x a, R x (f x a).

Lemma fold_left_grows (l : list A) (x : St) : R x (fold_left f l x).
Proof.
  revert x. induction l as [|a l IH]; intros x; simpl.
  - apply R_refl.
  - eapply R_trans; [apply f_grows | apply IH].
Qed.

End FoldGrowth.

Lemma counts_grow_refl (d : gmap (list ascii) nat) : Claimed.counts_grow d d.
Proof. intros k n H. exists n. split; [exact H | lia]. Qed.

Lemma counts_grow_trans (d1 d2 d3 : gmap (list ascii) nat) :
  Claimed.counts_grow d1 d2 -> Claimed.counts_grow d2 d3 ->
  Claimed.counts_grow d1 d3.
Proof.
  intros H12 H23 k n H.
  destruct (H12 k n H) as (n2 & H2 & Hle2).
  destruct (H23 k n2 H2) as (n3 & H3 & Hle3).
  exists n3. split; [exact H3 | lia].
Qed.

Lemma counts_grow_incr (k : str) (d : gmap (list ascii) nat) :
  Claimed.counts_grow d (Py.incr k d).
Proof.
  intros k' n H. unfold Py.incr.
  destruct (decide (k = k')) as [->|Hne].
  - rewrite lookup_insert_eq, H. simpl. exists (S n). split; [reflexivity | lia].
  - rewrite lookup_insert_ne by exact Hne. exists n. split; [exact H | lia].
Qed.

Lemma entries_kept_refl (m : gmap (list ascii) (list ascii)) :
  Claimed.entries_kept m m.
Proof. intros k v H. exact H. Qed.

Lemma entries_kept_trans (m1 m2 m3 : gmap (list ascii) (list ascii)) :
  Claimed.entries_kept m1 m2 -> Claimed.entries_kept m2 m3 ->
  Claimed.entries_kept m1 m3.
Proof. intros H12 H23 k v H. apply H23, H12, H. Qed.

Lemma sw_grows_refl (st : SW.state) : Claimed.sw_grows st st.
Proof.
  repeat split; [apply entries_kept_refl | apply counts_grow_refl ..].
Qed.

Lemma sw_grows_trans (st1 st2 st3 : SW.state) :
  Claimed.sw_grows st1 st2 -> Claimed.sw_grows st2 st3 ->
  Claimed.sw_grows st1 st3.
Proof.
  intros (Hm & Hf & Hs) (Hm' & Hf' & Hs'). repeat split.
  - eapply entries_kept_trans; eassumption.
  - eapply counts_grow_trans; eassumption.
  - eapply counts_grow_trans; eassumption.
Qed.

Lemma store_grows (st : SW.state) (sf lf : str) :
  Claimed.sw_grows st (SW.store st sf lf).
Proof.
  unfold SW.store. repeat split; simpl.
  - destruct (SW.acronym_mappings st !! sf) as [v|] eqn:Hm.
    + apply entries_kept_refl.
    + intros k v Hk. rewrite lookup_insert_ne; [exact Hk|].
      intros ->. congruence.
  - apply counts_grow_incr.
  - apply counts_grow_refl.
Qed.

Lemma candidate_step_grows (st : SW.state) (c : str * str) :
  Claimed.sw_grows st (SW.candidate_step st c).
Proof.
  unfold SW.candidate_step. destruct (SW.accepted c) as [[sf lf]|].
  - apply store_grows.
  - apply sw_grows_refl.
Qed.

Lemma standalone_step_grows (st : SW.state) (a : str) :
  Claimed.sw_grows st (SW.standalone_step st a).
Proof.
  unfold SW.standalone_step.
  destruct (SW.is_valid_acronym a); [|apply sw_grows_refl].
  destruct (SW.acronym_mappings st !! a); [apply sw_grows_refl|].
  repeat split; simpl.
  - apply entries_kept_refl.
  - apply counts_grow_refl.
  - apply counts_grow_incr.
Qed.

Lemma extract_acronyms_grows (st : SW.state) (text : str) :
  Claimed.sw_grows st (SW.extract_acronyms st text).
Proof.
  unfold SW.extract_acronyms.
  eapply sw_grows_trans.
  - apply (fold_left_grows Claimed.sw_grows SW.candidate_step
             sw_grows_refl sw_grows_trans candidate_step_grows).
  - apply (fold_left_grows Claimed.sw_grows SW.standalone_step
             sw_grows_refl sw_grows_trans standalone_step_grows).
Qed.

Lemma sw_process_pdf_grows (st : SW.state) (text : str) :
  Claimed.sw_grows st (SW.process_pdf st text).
Proof.
  unfold SW.process_pdf. destruct (length text =? 0).
  - apply sw_grows_refl.
  - apply extract_acronyms_grows.
Qed.

Lemma ac_grows_refl (st : AC.state) : Claimed.ac_grows st st.
Proof. split; apply counts_grow_refl. Qed.

Lemma ac_grows_trans (st1 st2 st3 : AC.state) :
  Claimed.ac_grows st1 st2 -> Claimed.ac_grows st2 st3 ->
  Claimed.ac_grows st1 st3.
Proof.
  intros [Hl Hs] [Hl' Hs']. split; eapply counts_grow_trans; eassumption.
Qed.

Section VocabularyGrowth.

Variable stop_words : list str.

Lemma word_step_grows (acc : AC.state * list str) (word : str) :
  Claimed.ac_grows (fst acc) (fst (AC.word_step stop_words acc word)).
Proof.
  unfold AC.word_step. destruct acc as [st lw]. simpl.
  destruct (_ || _); [apply ac_grows_refl|].
  destruct (Py.mem _ _); [apply ac_grows_refl|].
  destruct (AC._is_acronym word); simpl; [|apply ac_grows_refl].
  split; simpl; [apply counts_grow_refl | apply counts_grow_incr].
Qed.

Lemma line_step_grows (acc : AC.state * list str) (line : str) :
  Claimed.ac_grows (fst acc) (fst (AC.line_step stop_words acc line)).
Proof.
  unfold AC.line_step. destruct (AC.is_heading line); [apply ac_grows_refl|].
  apply (fold_left_grows
           (fun x y : AC.state * list str => Claimed.ac_grows (fst x) (fst y))
           (AC.word_step stop_words)).
  - intros x. apply ac_grows_refl.
  - intros x y z. apply ac_grows_trans.
  - intros x a. apply word_step_grows.
Qed.

Lemma extract_words_grows (st : AC.state) (lines : list str) :
  Claimed.ac_grows st (fst (AC.extract_words_from_text stop_words st lines)).
Proof.
  unfold AC.extract_words_from_text.
  apply (fold_left_grows
           (fun x y : AC.state * list str => Claimed.ac_grows (fst x) (fst y))
           (AC.line_step stop_words)
           (fun x => ac_grows_refl (fst x))
           (fun x y z => ac_grows_trans (fst x) (fst y) (fst z))
           line_step_grows lines (st, [])).
Qed.

Lemma update_word_data_grows (st : AC.state) (lowercase_words : list str) :
  Claimed.ac_grows st (AC.update_word_data st lowercase_words).
Proof.
  unfold AC.update_word_data.
  apply (fold_left_grows Claimed.ac_grows _ ac_grows_refl ac_grows_trans).
  intros x w. split; simpl; [apply counts_grow_incr | apply counts_grow_refl].
Qed.

Lemma ac_process_pdf_grows (st : AC.state) (lines : list str) :
  Claimed.ac_grows st (AC.process_pdf stop_words st lines).
Proof.
  unfold AC.process_pdf. destruct (length lines =? 0); [apply ac_grows_refl|].
  pose proof (extract_words_grows st lines) as H.
  destruct (AC.extract_words_from_text stop_words st lines) as [st1 lw].
  simpl in H. destruct (_ && _); [exact H|].
  eapply ac_grows_trans; [exact H | apply update_word_data_grows].
Qed.

End VocabularyGrowth.

(** C9: in both modes, the state reached after more documents dominates
    the state reached after fewer: every entry of the mapping table is
    still there with the same long form, every key of a counter is still
    there and its count is not smaller.  The same holds across one call of
    [extract_acronyms], [extract_words_from_text] and
    [update_word_data]. *)
Theorem state_only_grows :
  (forall st docs1 docs2,
     Claimed.sw_grows (SW.process_all_pdfs st docs1)
                      (SW.process_all_pdfs st (docs1 ++ docs2)))
  /\ (forall st text, Claimed.sw_grows st (SW.extract_acronyms st text))
  /\ (forall stop_words st docs1 docs2,
        Claimed.ac_grows (AC.process_all_documents stop_words st docs1)
                         (AC.process_all_documents stop_words st (docs1 ++ docs2)))
  /\ (forall stop_words st lines,
        Claimed.ac_grows st
          (fst (AC.extract_words_from_text stop_words st lines)))
  /\ (forall st lowercase_words,
        Claimed.ac_grows st (AC.update_word_data st lowercase_words)).
Proof.
  split; [|split; [|split; [|split]]].
  - intros st docs1 docs2. unfold SW.process_all_pdfs. rewrite fold_left_app.
    apply (fold_left_grows Claimed.sw_grows SW.process_pdf
             sw_grows_refl sw_grows_trans sw_process_pdf_grows).
  - apply extract_acronyms_grows.
  - intros stop_words st docs1 docs2. unfold AC.process_all_documents.
    rewrite fold_left_app.
    apply (fold_left_grows Claimed.ac_grows (AC.process_pdf stop_words)
             ac_grows_refl ac_grows_trans (ac_process_pdf_grows stop_words)).
  - apply extract_words_grows.
  - apply update_word_data_grows.
Qed.

(** ** Stored long forms *)

Lemma isupper_not_islower (c : ascii) :
  Chr.isupper c = true -> Chr.islower c = false.
Proof. destruct c as [[] [] [] [] [] [] [] []]; vm_compute; congruence. Qed.

Lemma upper_of_lower_not_space (c : ascii) :
  Chr.islower c = true -> Chr.isspace (Chr.upper c) = false.
Proof. destruct c as [[] [] [] [] [] [] [] []]; vm_compute; congruence. Qed.

Section Runs.

Variable sep : ascii -> bool.

(** Every run is solid. *)
Lemma runs_solid (t : str) : Forall (Py.solid sep) (Py.runs sep t).
Proof.
  induction t as [|c t IH]; simpl; [constructor|].
  destruct (sep c) eqn:Hc; [exact IH|].
  destruct (Py.starts_run sep t).
  - destruct (Py.runs sep t) as [|w ws].
    + constructor; [|constructor]. split; [discriminate|].
      constructor; [exact Hc | constructor].
    + inversion IH as [|? ? [Hne Hw] Hws]; subst.
      constructor; [|exact Hws]. split; [discriminate|].
      constructor; assumption.
  - constructor; [|exact IH]. split; [discriminate|].
    constructor; [exact Hc | constructor].
Qed.

(** A solid word followed by a separator is the first run. *)
Lemma runs_first_word (w : str) (d : ascii) (t : str) :
  Py.solid sep w -> sep d = true ->
  Py.runs sep (w ++ d :: t) = w :: Py.runs sep t.
Proof.
  intros [Hne Hw] Hd. induction w as [|c w IH]; [contradiction|].
  inversion Hw as [|? ? Hc Hw']; subst. simpl. rewrite Hc.
  destruct w as [|c2 w].
  - simpl. rewrite Hd. simpl. reflexivity.
  - inversion Hw' as [|? ? Hc2 ?]; subst.
    change (Py.starts_run sep ((c2 :: w) ++ d :: t)) with (negb (sep c2)).
    rewrite Hc2. simpl negb. cbv iota.
    rewrite IH; [reflexivity | discriminate | exact Hw'].
Qed.

(** A text without separators has at most one run. *)
Lemma runs_of_solid (t : str) :
  Forall (fun c => sep c = false) t -> length (Py.runs sep t) <= 1.
Proof.
  induction t as [|c t IH]; intros Ht; simpl; [lia|].
  inversion Ht as [|? ? Hc Ht']; subst. rewrite Hc.
  specialize (IH Ht').
  destruct t as [|c2 t]; [simpl; lia|].
  inversion Ht' as [|? ? Hc2 ?]; subst.
  change (Py.starts_run sep (c2 :: t)) with (negb (sep c2)).
  rewrite Hc2. simpl negb. cbv iota.
  destruct (Py.runs sep (c2 :: t)) as [|w ws]; simpl in *; lia.
Qed.

End Runs.

Lemma lstrip_by_Forall (P : ascii -> Prop) (p : ascii -> bool) (t : str) :
  Forall P t -> Forall P (Py.lstrip_by p t).
Proof.
  induction t as [|c t IH]; intros Ht; simpl; [constructor|].
  destruct (p c); [|exact Ht].
  inversion Ht; subst. apply IH. assumption.
Qed.

Lemma rstrip_by_Forall (P : ascii -> Prop) (p : ascii -> bool) (t : str) :
  Forall P t -> Forall P (Py.rstrip_by p t).
Proof.
  intros Ht. unfold Py.rstrip_by.
  apply Forall_rev, lstrip_by_Forall, Forall_rev, Ht.
Qed.

Lemma pop_leading_Forall (P : str -> Prop) (words : list str) :
  Forall P words -> Forall P (SW.pop_leading words).
Proof.
  induction words as [|w words IH]; intros Hw; simpl; [constructor|].
  destruct (SW.is_leading_noise w); [|exact Hw].
  inversion Hw; subst. apply IH. assumption.
Qed.

Lemma pop_leading_head (words : list str) (w : str) (rest : list str) :
  SW.pop_leading words = w :: rest -> SW.is_leading_noise w = false.
Proof.
  induction words as [|w0 words IH]; simpl; [discriminate|].
  destruct (SW.is_leading_noise w0) eqn:Hn; [exact IH|].
  intros [= -> _]. exact Hn.
Qed.

Lemma validate_rejects_one_word (short_form long_form : str) :
  length (Py.split long_form) <= 1 ->
  SW.validate_long_form short_form long_form = false.
Proof.
  intros Hlen. unfold SW.validate_long_form.
  destruct (length long_form <? 3); [reflexivity|].
  assert (H : (length (Py.split long_form) <? 2) = true)
    by (apply Nat.ltb_lt; lia).
  rewrite H. reflexivity.
Qed.

(** What [clean_long_form] returns is well formed whenever the validator
    accepts it: a result of no word or one word is rejected, and with two
    words or more the first one survived the loop that pops stop words
    and words without a capital. *)
Lemma clean_validated (short_form long_form : str) :
  SW.validate_long_form short_form (SW.clean_long_form long_form) = true ->
  Claimed.well_formed (SW.clean_long_form long_form).
Proof.
  unfold SW.clean_long_form.
  destruct (length long_form =? 0); [intros H; vm_compute in H; discriminate|].
  pose proof (pop_leading_Forall _ _ (runs_solid Chr.isspace long_form)) as Hsolid.
  fold (Py.split long_form) in Hsolid.
  destruct (SW.pop_leading (Py.split long_form)) as [|w1 [|w2 rest]] eqn:Hpop.
  - intros H. vm_compute in H. discriminate.
  - intros H. exfalso.
    rewrite validate_rejects_one_word in H; [discriminate|].
    inversion Hsolid as [|? ? [_ Hw1] _]; subst.
    apply runs_of_solid.
    assert (Hr : Forall (fun c => Chr.isspace c = false)
                   (Py.join (s " ") (SW.rstrip_last [w1]))).
    { simpl. unfold Py.rstrip_chars. apply rstrip_by_Forall, Hw1. }
    destruct (Py.join (s " ") (SW.rstrip_last [w1])) as [|c r]; [constructor|].
    destruct (Chr.islower c) eqn:Hlow; [|exact Hr].
    inversion Hr; subst. constructor; [|assumption].
    apply upper_of_lower_not_space, Hlow.
  - intros _.
    apply pop_leading_head in Hpop as Hnoise.
    unfold SW.is_leading_noise in Hnoise.
    apply orb_false_iff in Hnoise as [Hstop Hup].
    apply negb_false_iff in Hup.
    inversion Hsolid as [|? ? Hs1 _]; subst.
    destruct w1 as [|c w1]; [discriminate|].
    simpl in Hup.
    change (SW.rstrip_last ((c :: w1) :: w2 :: rest))
      with ((c :: w1) :: SW.rstrip_last (w2 :: rest)).
    assert (Hne : SW.rstrip_last (w2 :: rest) <> []).
    { clear. revert w2. induction rest as [|w3 rest IH]; intros w2; simpl.
      - discriminate.
      - discriminate. }
    destruct (SW.rstrip_last (w2 :: rest)) as [|x xs] eqn:Hlast; [contradiction|].
    change (Py.join (s " ") ((c :: w1) :: x :: xs))
      with (c :: (w1 ++ " "%char :: Py.join (s " ") (x :: xs))).
    cbv iota. rewrite (isupper_not_islower c Hup).
    split; [discriminate|]. split; [exact Hup|].
    exists (c :: w1), (Py.split (Py.join (s " ") (x :: xs))).
    split; [|exact Hstop].
    unfold Py.split.
    change (c :: (w1 ++ " "%char :: Py.join (s " ") (x :: xs)))
      with ((c :: w1) ++ " "%char :: Py.join (s " ") (x :: xs)).
    apply runs_first_word; [exact Hs1 | reflexivity].
Qed.

Lemma accepted_cleaned (c : str * str) (sf lf : str) :
  SW.accepted c = Some (sf, lf) ->
  exists matched,
    SW.find_best_long_form (fst c) (snd c) = Some matched
    /\ lf = SW.clean_long_form matched
    /\ sf = fst c
    /\ SW.validate_long_form sf lf = true.
Proof.
  unfold SW.accepted. destruct c as [sf0 cand]. simpl.
  destruct (SW.find_best_long_form sf0 cand) as [m|]; [|discriminate].
  destruct (SW.validate_long_form sf0 (SW.clean_long_form m)) eqn:Hv;
    [|discriminate].
  intros [= <- <-]. exists m. repeat split. exact Hv.
Qed.

Lemma store_well_formed (st : SW.state) (sf lf : str) :
  Claimed.well_formed lf ->
  Claimed.all_well_formed (SW.acronym_mappings st) ->
  Claimed.all_well_formed (SW.acronym_mappings (SW.store st sf lf)).
Proof.
  intros Hlf Hall. unfold SW.store; simpl.
  destruct (SW.acronym_mappings st !! sf) eqn:Hm; [exact Hall|].
  intros k v Hk. destruct (decide (sf = k)) as [->|Hne].
  - rewrite lookup_insert_eq in Hk. injection Hk as <-. exact Hlf.
  - rewrite lookup_insert_ne in Hk by exact Hne. eapply Hall, Hk.
Qed.

Lemma candidate_step_well_formed (st : SW.state) (c : str * str) :
  Claimed.all_well_formed (SW.acronym_mappings st) ->
  Claimed.all_well_formed (SW.acronym_mappings (SW.candidate_step st c)).
Proof.
  intros Hall. unfold SW.candidate_step.
  destruct (SW.accepted c) as [[sf lf]|] eqn:Hacc; [|exact Hall].
  apply store_well_formed; [|exact Hall].
  destruct (accepted_cleaned c sf lf Hacc) as (m & _ & -> & _ & Hv).
  eapply clean_validated, Hv.
Qed.

Lemma standalone_step_mappings (st : SW.state) (a : str) :
  SW.acronym_mappings (SW.standalone_step st a) = SW.acronym_mappings st.
Proof.
  unfold SW.standalone_step. destruct (SW.is_valid_acronym a); [|reflexivity].
  destruct (SW.acronym_mappings st !! a); reflexivity.
Qed.

Lemma standalone_loop_mappings (l : list str) (st : SW.state) :
  SW.acronym_mappings (fold_left SW.standalone_step l st)
  = SW.acronym_mappings st.
Proof.
  revert st. induction l as [|a l IH]; intros st; simpl; [reflexivity|].
  rewrite IH. apply standalone_step_mappings.
Qed.

Lemma candidate_loop_well_formed (l : list (str * str)) (st : SW.state) :
  Claimed.all_well_formed (SW.acronym_mappings st) ->
  Claimed.all_well_formed (SW.acronym_mappings (fold_left SW.candidate_step l st)).
Proof.
  revert st. induction l as [|c l IH]; intros st Hall; simpl; [exact Hall|].
  apply IH, candidate_step_well_formed, Hall.
Qed.

Lemma process_pdf_well_formed (st : SW.state) (text : str) :
  Claimed.all_well_formed (SW.acronym_mappings st) ->
  Claimed.all_well_formed (SW.acronym_mappings (SW.process_pdf st text)).
Proof.
  intros Hall. unfold SW.process_pdf.
  destruct (length text =? 0); [exact Hall|].
  unfold SW.extract_acronyms. rewrite standalone_loop_mappings.
  apply candidate_loop_well_formed, Hall.
Qed.

Lemma process_all_well_formed (texts : list str) (st : SW.state) :
  Claimed.all_well_formed (SW.acronym_mappings st) ->
  Claimed.all_well_formed (SW.acronym_mappings (SW.process_all_pdfs st texts)).
Proof.
  unfold SW.process_all_pdfs. revert st.
  induction texts as [|t texts IH]; intros st Hall; simpl; [exact Hall|].
  apply IH, process_pdf_well_formed, Hall.
Qed.

(** C10: whatever the corpus, a long form found in the mapping table is
    not empty, begins with a capital letter, and its first word,
    lowercased, is not a stop word. *)
Theorem stored_long_forms_well_formed
    (texts : list str) (short_form long_form : str) :
  SW.acronym_mappings (SW.process_all_pdfs SW.empty_state texts) !! short_form
  = Some long_form ->
  long_form <> []
  /\ Heading.starts_upper long_form = true
  /\ exists w ws, Py.split long_form = w :: ws
                  /\ Py.mem (Py.lower w) SW.stop_words = false.
Proof.
  intros Hlook.
  apply (process_all_well_formed texts SW.empty_state) in Hlook; [exact Hlook|].
  intros k v Hk. simpl in Hk. rewrite lookup_empty in Hk. discriminate.
Qed.

Lemma stored_long_forms_well_formed_witness :
  SW.acronym_mappings (SW.process_all_pdfs SW.empty_state [Ex.rd_defined])
    !! s "RD" = Some (s "Research And Development")
  /\ s "Research And Development" <> []
  /\ Heading.starts_upper (s "Research And Development") = true
  /\ exists w ws, Py.split (s "Research And Development") = w :: ws
                  /\ Py.mem (Py.lower w) SW.stop_words = false.
Proof.
  split.
  - vm_compute. reflexivity.
  - apply (stored_long_forms_well_formed [Ex.rd_defined] (s "RD")
             (s "Research And Development")).
    vm_compute. reflexivity.
Defined.

(** ** Exclusivity within one document *)

Lemma candidate_loop_standalone (l : list (str * str)) (st : SW.state) :
  SW.standalone_acronyms (fold_left SW.candidate_step l st)
  = SW.standalone_acronyms st.
Proof.
  revert st. induction l as [|c l IH]; intros st; simpl; [reflexivity|].
  rewrite IH. unfold SW.candidate_step.
  destruct (SW.accepted c) as [[sf lf]|]; reflexivity.
Qed.

Lemma standalone_loop_exclusive (l : list str) (st : SW.state) :
  (forall k, is_Some (SW.standalone_acronyms st !! k) ->
             SW.acronym_mappings st !! k = None) ->
  forall k, is_Some (SW.standalone_acronyms (fold_left SW.standalone_step l st) !! k) ->
            SW.acronym_mappings (fold_left SW.standalone_step l st) !! k = None.
Proof.
  revert st. induction l as [|a l IH]; intros st Hex; simpl; [exact Hex|].
  apply IH. clear IH. intros k. unfold SW.standalone_step.
  destruct (SW.is_valid_acronym a); [|apply Hex].
  destruct (SW.acronym_mappings st !! a) eqn:Hm; [apply Hex|]. simpl.
  unfold Py.incr. destruct (decide (a = k)) as [<-|Hne].
  - intros _. exact Hm.
  - rewrite lookup_insert_ne by exact Hne. apply Hex.
Qed.

(** The guard of the standalone loop does its work as long as the
    standalone table starts empty: after one document processed by a
    fresh extractor no acronym is a key of both tables. *)
Lemma one_document_exclusive (text k : str) :
  is_Some (SW.standalone_acronyms (SW.process_pdf SW.empty_state text) !! k) ->
  SW.acronym_mappings (SW.process_pdf SW.empty_state text) !! k = None.
Proof.
  unfold SW.process_pdf. destruct (length text =? 0).
  - simpl. rewrite lookup_empty. intros [? H]. discriminate.
  - unfold SW.extract_acronyms. apply standalone_loop_exclusive.
    intros k'. rewrite candidate_loop_standalone. simpl.
    rewrite lookup_empty. intros [? H]. discriminate.
Qed.

(** * Further properties of the code *)

(** ** Trimming *)

Lemma lstrip_by_split (p : ascii -> bool) (t : str) :
  exists pre, t = pre ++ Py.lstrip_by p t /\ Forall (fun c => p c = true) pre.
Proof.
  induction t as [|c t IH]; simpl.
  - exists []. split; [reflexivity | constructor].
  - destruct (p c) eqn:Hc.
    + destruct IH as (pre & Heq & Hpre). exists (c :: pre). split.
      * simpl. congruence.
      * constructor; assumption.
    + exists []. split; [reflexivity | constructor].
Qed.

Lemma lstrip_by_head (p : ascii -> bool) (t : str) (c : ascii) (r : str) :
  Py.lstrip_by p t = c :: r -> p c = false.
Proof.
  induction t as [|a t IH]; simpl; [discriminate|].
  destruct (p a) eqn:Ha; [exact IH|]. intros [= -> _]. exact Ha.
Qed.

Lemma lstrip_by_keeps (p : ascii -> bool) (a : str) (y : ascii) (rest : str) :
  p y = false ->
  exists a', Py.lstrip_by p (a ++ y :: rest) = a' ++ y :: rest.
Proof.
  intros Hy. induction a as [|c a IH]; simpl.
  - rewrite Hy. exists []. reflexivity.
  - destruct (p c); [exact IH|]. exists (c :: a). reflexivity.
Qed.

Lemma rstrip_by_split (p : ascii -> bool) (t : str) :
  exists suf, t = Py.rstrip_by p t ++ suf /\ Forall (fun c => p c = true) suf.
Proof.
  unfold Py.rstrip_by.
  destruct (lstrip_by_split p (rev t)) as (pre & Heq & Hpre).
  exists (rev pre). split.
  - apply (f_equal (@rev ascii)) in Heq.
    rewrite rev_involutive, rev_app_distr in Heq. exact Heq.
  - apply Forall_rev, Hpre.
Qed.

Lemma rstrip_by_last (p : ascii -> bool) (t r : str) (c : ascii) :
  Py.rstrip_by p t = r ++ [c] -> p c = false.
Proof.
  unfold Py.rstrip_by. intros H.
  apply (f_equal (@rev ascii)) in H.
  rewrite rev_involutive, rev_app_distr in H. simpl in H.
  eapply lstrip_by_head, H.
Qed.

Lemma rstrip_by_fixed (p : ascii -> bool) (t : str) :
  (forall r c, t = r ++ [c] -> p c = false) -> Py.rstrip_by p t = t.
Proof.
  intros H. unfold Py.rstrip_by.
  destruct (rev t) as [|c r] eqn:Hrev.
  - simpl. apply (f_equal (@rev ascii)) in Hrev.
    rewrite rev_involutive in Hrev. simpl in Hrev. congruence.
  - assert (Ht : t = rev r ++ [c]).
    { apply (f_equal (@rev ascii)) in Hrev.
      rewrite rev_involutive in Hrev. exact Hrev. }
    simpl. rewrite (H _ _ Ht). simpl. symmetry. exact Ht.
Qed.

Lemma strip_last (t r : str) (c : ascii) :
  Py.strip t = r ++ [c] -> Chr.isspace c = false.
Proof. apply rstrip_by_last. Qed.

Lemma strip_head (t r : str) (c : ascii) :
  Py.strip t = c :: r -> Chr.isspace c = false.
Proof.
  unfold Py.strip. intros H.
  destruct (rstrip_by_split Chr.isspace (Py.lstrip_by Chr.isspace t))
    as (suf & Heq & _).
  rewrite H in Heq. simpl in Heq. eapply lstrip_by_head, Heq.
Qed.

(** A text that neither begins nor ends with white space is its own
    trimming. *)
Lemma strip_fixed (t : str) :
  (forall c r, t = c :: r -> Chr.isspace c = false) ->
  (forall r c, t = r ++ [c] -> Chr.isspace c = false) ->
  Py.strip t = t.
Proof.
  intros Hhead Hlast. unfold Py.strip.
  assert (Hl : Py.lstrip_by Chr.isspace t = t).
  { destruct t as [|c r]; [reflexivity|]. simpl.
    rewrite (Hhead c r eq_refl). reflexivity. }
  rewrite Hl. apply rstrip_by_fixed, Hlast.
Qed.

Lemma strip_idempotent (t : str) : Py.strip (Py.strip t) = Py.strip t.
Proof.
  apply strip_fixed.
  - intros c r H. eapply strip_head, H.
  - intros r c H. eapply strip_last, H.
Qed.

Lemma strip_split (t : str) :
  exists pre suf,
    t = pre ++ Py.strip t ++ suf
    /\ Forall (fun c => Chr.isspace c = true) pre
    /\ Forall (fun c => Chr.isspace c = true) suf.
Proof.
  unfold Py.strip.
  destruct (lstrip_by_split Chr.isspace t) as (pre & Hpre & Fpre).
  destruct (rstrip_by_split Chr.isspace (Py.lstrip_by Chr.isspace t))
    as (suf & Hsuf & Fsuf).
  exists pre, suf. split; [|split; assumption].
  rewrite <- Hsuf. exact Hpre.
Qed.

(** Trimming a suffix of a trimmed text only removes leading white
    space. *)
Lemma strip_of_suffix (t : str) (i : nat) :
  Py.strip t = t ->
  exists ws,
    drop i t = ws ++ Py.strip (drop i t)
    /\ Forall (fun c => Chr.isspace c = true) ws.
Proof.
  intros Ht.
  destruct (lstrip_by_split Chr.isspace (drop i t)) as (ws & Hws & Fws).
  exists ws. split; [|exact Fws].
  unfold Py.strip. rewrite rstrip_by_fixed; [exact Hws|].
  intros r c Hr. rewrite Hr in Hws.
  assert (Hend : t = (take i t ++ ws ++ r) ++ [c]).
  { rewrite <- (take_drop i t) at 1. rewrite Hws.
    rewrite <- !app_assoc. reflexivity. }
  rewrite <- Ht in Hend. eapply strip_last, Hend.
Qed.

(** ** The backward scan of the matcher *)

Lemma at_lookup (t : str) (i : nat) :
  i < length t -> t !! i = Some (Py.at_ t i).
Proof.
  intros H. unfold Py.at_.
  destruct (nth_lookup_or_length t i "000"%char); [assumption | lia].
Qed.

Lemma boundary_is_space (c : ascii) :
  SW.is_boundary c = true -> Chr.isspace c = true.
Proof. destruct c as [[] [] [] [] [] [] [] []]; vm_compute; congruence. Qed.

Lemma lower_keeps_space (c : ascii) :
  Chr.isspace (Chr.lower c) = Chr.isspace c.
Proof. destruct c as [[] [] [] [] [] [] [] []]; vm_compute; reflexivity. Qed.

Lemma scan_back_Some (lf : str) (c : ascii) (n i : nat) :
  n <= length lf -> SW.scan_back lf c n = Some i ->
  i < n /\ Chr.lower (Py.at_ lf i) = c
  /\ exists mid, take n lf = take i lf ++ Py.at_ lf i :: mid
                 /\ Forall (fun x => Chr.lower x <> c) mid.
Proof.
  induction n as [|k IH]; simpl; [discriminate|]. intros Hn.
  assert (Hk : lf !! k = Some (Py.at_ lf k)) by (apply at_lookup; lia).
  destruct (Ascii.eqb (Chr.lower (Py.at_ lf k)) c) eqn:E.
  - intros [= <-]. apply Ascii.eqb_eq in E.
    split; [lia|]. split; [exact E|]. exists []. split;
      [apply take_S_r, Hk | constructor].
  - intros H. destruct (IH ltac:(lia) H) as (Hi & Hc & mid & Hm & Fm).
    split; [lia|]. split; [exact Hc|].
    exists (mid ++ [Py.at_ lf k]). split.
    + rewrite (take_S_r _ _ _ Hk), Hm, <- app_assoc. reflexivity.
    + apply Forall_app. split; [exact Fm|].
      constructor; [|constructor]. apply Ascii.eqb_neq, E.
Qed.

Lemma scan_back_None (lf : str) (c : ascii) (n : nat) :
  n <= length lf -> SW.scan_back lf c n = None ->
  Forall (fun x => Chr.lower x <> c) (take n lf).
Proof.
  induction n as [|k IH]; simpl; intros Hn.
  - intros _. rewrite take_0. constructor.
  - assert (Hk : lf !! k = Some (Py.at_ lf k)) by (apply at_lookup; lia).
    destruct (Ascii.eqb (Chr.lower (Py.at_ lf k)) c) eqn:E; [discriminate|].
    intros H. rewrite (take_S_r _ _ _ Hk). apply Forall_app. split.
    + apply IH; [lia | exact H].
    + constructor; [|constructor]. apply Ascii.eqb_neq, E.
Qed.

(** A successful scan has met the letters of the short form, in order,
    between the final cursor and the starting one. *)
Lemma match_back_sound (lf sfr : str) (n n' : nat) :
  n <= length lf -> SW.match_back lf sfr n = Some n' ->
  n' <= n
  /\ map Chr.lower (rev sfr) `sublist_of` map Chr.lower (drop n' (take n lf))
  /\ (forall sfr' x, sfr = sfr' ++ [x] ->
        exists y rest, drop n' (take n lf) = y :: rest
                       /\ Chr.lower y = Chr.lower x).
Proof.
  revert n. induction sfr as [|c sfr IH]; intros n Hn; simpl.
  - intros [= <-]. split; [lia|]. split; [apply sublist_nil_l|].
    intros sfr' x H. destruct sfr'; discriminate.
  - destruct (SW.scan_back lf (Chr.lower c) n) as [i|] eqn:Hscan; [|discriminate].
    intros Hm.
    destruct (scan_back_Some lf _ n i Hn Hscan) as (Hi & Hc & mid & Htake & _).
    destruct (IH i ltac:(lia) Hm) as (Hle & Hsub & Hfirst).
    assert (Hdrop : drop n' (take n lf)
                    = drop n' (take i lf) ++ Py.at_ lf i :: mid).
    { rewrite Htake. apply drop_app_le. rewrite length_take. lia. }
    split; [lia|]. split.
    + rewrite Hdrop, !map_app. apply sublist_app; [exact Hsub|].
      simpl. rewrite Hc. apply sublist_skip, sublist_nil_l.
    + intros sfr' x Heq. destruct sfr' as [|c' sfr'].
      * simpl in Heq. injection Heq as Hcx Hs. subst c sfr. simpl in Hm.
        injection Hm as Hni. subst n'.
        exists (Py.at_ lf i), mid. split; [|exact Hc].
        rewrite Hdrop, drop_ge; [reflexivity|]. rewrite length_take. lia.
      * simpl in Heq. injection Heq as Hcx Hs. subst c' sfr.
        destruct (Hfirst sfr' x eq_refl) as (y & rest & Hy & Hlow).
        exists y, (rest ++ Py.at_ lf i :: mid). split; [|exact Hlow].
        rewrite Hdrop, Hy. reflexivity.
Qed.

(** A failed scan means the letters of the short form do not occur in
    order in the text before the starting cursor: taking the last
    occurrence each time loses nothing. *)
Lemma match_back_complete (lf sfr : str) (n : nat) :
  n <= length lf -> SW.match_back lf sfr n = None ->
  ~ (map Chr.lower (rev sfr) `sublist_of` map Chr.lower (take n lf)).
Proof.
  revert n. induction sfr as [|c sfr IH]; intros n Hn; simpl; [discriminate|].
  rewrite map_app. simpl.
  destruct (SW.scan_back lf (Chr.lower c) n) as [i|] eqn:Hscan.
  - intros Hm Hsub.
    destruct (scan_back_Some lf _ n i Hn Hscan) as (Hi & Hc & mid & Htake & Fmid).
    apply (IH i ltac:(lia) Hm).
    rewrite Htake, map_app in Hsub. simpl in Hsub. rewrite Hc in Hsub.
    apply sublist_app_l in Hsub as (k1 & k2 & Hk & Hs1 & Hs2).
    apply singleton_sublist_l in Hs2.
    apply app_eq_inv in Hk as [(k & HA & _) | (k & Hk1 & Hk2)].
    + rewrite HA. apply sublist_inserts_r, Hs1.
    + destruct k as [|x k].
      * rewrite app_nil_r in Hk1. subst k1. exact Hs1.
      * exfalso. simpl in Hk2. injection Hk2 as _ HM.
        assert (Hin : In (Chr.lower c) (map Chr.lower mid)).
        { rewrite HM. apply in_or_app. right. apply list_elem_of_In, Hs2. }
        apply in_map_iff in Hin as (x0 & Hx0 & Hin).
        rewrite List.Forall_forall in Fmid. apply (Fmid x0 Hin Hx0).
  - intros _ Hsub.
    pose proof (scan_back_None lf _ n Hn Hscan) as Fno.
    assert (Hin : In (Chr.lower c) (map Chr.lower (take n lf))).
    { apply list_elem_of_In. eapply elem_of_sublist; [|exact Hsub].
      apply list_elem_of_In, in_or_app. right. left. reflexivity. }
    apply in_map_iff in Hin as (x0 & Hx0 & Hin).
    rewrite List.Forall_forall in Fno. apply (Fno x0 Hin Hx0).
Qed.

Lemma word_start_spec (lf : str) (n : nat) :
  SW.word_start lf n <= n
  /\ (SW.word_start lf n = 0
      \/ exists i, SW.word_start lf n = S i
                   /\ SW.is_boundary (Py.at_ lf i) = true).
Proof.
  induction n as [|k [IHle IH]]; simpl.
  - split; [lia | left; reflexivity].
  - destruct (SW.is_boundary (Py.at_ lf k)) eqn:Hb.
    + split; [lia|]. right. exists k. split; [reflexivity | exact Hb].
    + split; [lia | exact IH].
Qed.

(** What a successful call of [find_best_long_form] went through. *)
Lemma find_best_inv (short_form long_form_candidate m : str) :
  SW.find_best_long_form short_form long_form_candidate = Some m ->
  length (Py.strip short_form) <= length (Py.strip long_form_candidate)
  /\ exists n,
       SW.match_back (Py.strip long_form_candidate)
         (rev (Py.strip short_form))
         (length (Py.strip long_form_candidate)) = Some n
       /\ m = Py.strip (drop (SW.word_start (Py.strip long_form_candidate) n)
                             (Py.strip long_form_candidate))
       /\ m <> [].
Proof.
  unfold SW.find_best_long_form, SW.extract_min_max.
  destruct (length (Py.strip long_form_candidate)
            <? length (Py.strip short_form)) eqn:Hlen; [discriminate|].
  apply Nat.ltb_ge in Hlen. cbv zeta.
  destruct (SW.match_back _ _ _) as [n|] eqn:Hm; [|discriminate].
  destruct (0 <? length _) eqn:Hpos; [|discriminate].
  intros [= <-]. split; [exact Hlen|]. exists n. split; [reflexivity|].
  split; [reflexivity|].
  apply Nat.ltb_lt in Hpos. intros H. rewrite H in Hpos. simpl in Hpos. lia.
Qed.

Lemma find_best_shape (short_form long_form_candidate m : str) :
  SW.find_best_long_form short_form long_form_candidate = Some m ->
  m <> [] /\ Py.strip m = m
  /\ exists pre,
       Py.strip long_form_candidate = pre ++ m
       /\ (pre = []
           \/ exists pre' c, pre = pre' ++ [c] /\ Chr.isspace c = true).
Proof.
  intros H. destruct (find_best_inv _ _ _ H) as (_ & n & Hm & -> & Hne).
  destruct (match_back_sound _ _ _ n (le_n _) Hm) as (Hn & _ & _).
  destruct (word_start_spec (Py.strip long_form_candidate) n) as (Hst & Hb).
  destruct (strip_of_suffix (Py.strip long_form_candidate)
              (SW.word_start (Py.strip long_form_candidate) n)
              (strip_idempotent long_form_candidate)) as (ws & Hws & Fws).
  split; [exact Hne|]. split; [apply strip_idempotent|].
  exists (take (SW.word_start (Py.strip long_form_candidate) n)
               (Py.strip long_form_candidate) ++ ws).
  split.
  - rewrite <- app_assoc, <- Hws. symmetry. apply take_drop.
  - induction ws as [|c ws' _] using rev_ind.
    + rewrite app_nil_r. destruct Hb as [H0 | (i & Hi & Hbd)].
      * left. rewrite H0. apply take_0.
      * right. exists (take i (Py.strip long_form_candidate)),
                      (Py.at_ (Py.strip long_form_candidate) i).
        split; [|apply boundary_is_space, Hbd].
        rewrite Hi. apply take_S_r, at_lookup. lia.
    + right. exists (take (SW.word_start (Py.strip long_form_candidate) n)
                          (Py.strip long_form_candidate) ++ ws'), c.
      split; [apply app_assoc|].
      apply Forall_app in Fws as [_ Fc]. inversion Fc. assumption.
Qed.

(** X1: a long form returned by the matcher is made of whole words at the
    end of the trimmed candidate: it is not empty, it is trimmed, and in
    the candidate it is preceded by white space or by nothing. *)
Theorem long_form_is_trailing_words (short_form long_form_candidate m : str) :
  SW.find_best_long_form short_form long_form_candidate = Some m ->
  m <> [] /\ Py.strip m = m
  /\ exists pre,
       Py.strip long_form_candidate = pre ++ m
       /\ (pre = []
           \/ exists pre' c, pre = pre' ++ [c] /\ Chr.isspace c = true).
Proof. apply find_best_shape. Qed.

Lemma long_form_is_trailing_words_witness :
  SW.find_best_long_form (s "RD")
    (s "annual report on Research And Development")
  = Some (s "Research And Development")
  /\ s "Research And Development" <> []
  /\ Py.strip (s "Research And Development") = s "Research And Development"
  /\ exists pre,
       Py.strip (s "annual report on Research And Development")
       = pre ++ s "Research And Development"
       /\ (pre = []
           \/ exists pre' c, pre = pre' ++ [c] /\ Chr.isspace c = true).
Proof.
  split.
  - vm_compute. reflexivity.
  - apply (long_form_is_trailing_words (s "RD")
             (s "annual report on Research And Development")).
    vm_compute. reflexivity.
Defined.

Lemma tail_after_spaces (ws m a rest : str) (y : ascii) :
  ws ++ m = a ++ y :: rest ->
  Forall (fun c => Chr.isspace c = true) ws ->
  Chr.isspace y = false ->
  exists a', m = a' ++ y :: rest.
Proof.
  intros Heq Fws Hy.
  apply app_eq_inv in Heq as [(k & Hws & Hm) | (k & Ha & Hm)].
  - destruct k as [|x k].
    + exists []. simpl in *. congruence.
    + exfalso. simpl in Hm. injection Hm as Hx _. subst x ws.
      apply Forall_app in Fws as [_ Fy]. inversion Fy. congruence.
  - exists k. exact Hm.
Qed.

Lemma find_best_letters (short_form long_form_candidate m : str) :
  SW.find_best_long_form short_form long_form_candidate = Some m ->
  Py.lower (Py.strip short_form) `sublist_of` Py.lower m.
Proof.
  intros H. destruct (find_best_inv _ _ _ H) as (_ & n & Hm & Heq & Hne).
  destruct (match_back_sound _ _ _ n (le_n _) Hm) as (Hn & Hsub & Hfirst).
  rewrite take_ge in Hsub, Hfirst by lia. rewrite rev_involutive in Hsub.
  destruct (Py.strip short_form) as [|x sf'] eqn:Hsf; [apply sublist_nil_l|].
  destruct (Hfirst (rev sf') x) as (y & rest & Hy & Hlow).
  { simpl. reflexivity. }
  assert (Hyspace : Chr.isspace y = false).
  { rewrite <- lower_keeps_space, Hlow, lower_keeps_space.
    eapply strip_head, Hsf. }
  destruct (word_start_spec (Py.strip long_form_candidate) n) as (Hst & _).
  destruct (strip_of_suffix (Py.strip long_form_candidate)
              (SW.word_start (Py.strip long_form_candidate) n)
              (strip_idempotent long_form_candidate)) as (ws & Hws & Fws).
  rewrite <- Heq in Hws.
  rewrite <- (drop_take_drop _ _ n Hst), Hy in Hws.
  symmetry in Hws.
  destruct (tail_after_spaces _ _ _ _ _ Hws Fws Hyspace) as (a' & Hma).
  unfold Py.lower. rewrite Hma, map_app, <- Hy.
  apply sublist_inserts_l, Hsub.
Qed.

(** X2: the letters of the trimmed short form occur, in order and up to
    case, in the long form that the matcher returns. *)
Theorem long_form_holds_letters (short_form long_form_candidate m : str) :
  SW.find_best_long_form short_form long_form_candidate = Some m ->
  Py.lower (Py.strip short_form) `sublist_of` Py.lower m.
Proof. apply find_best_letters. Qed.

Lemma long_form_holds_letters_witness :
  SW.find_best_long_form (s "NATO") Ex.nato_clause = Some (s "Organization")
  /\ Py.lower (Py.strip (s "NATO")) `sublist_of` Py.lower (s "Organization").
Proof.
  split.
  - vm_compute. reflexivity.
  - apply (long_form_holds_letters (s "NATO") Ex.nato_clause).
    vm_compute. reflexivity.
Defined.

(** X3: the matcher finds a long form exactly when the trimmed candidate
    is not empty and the letters of the trimmed short form occur in it in
    order, up to case; the length test and the word bound add nothing to
    that. *)
Theorem match_iff_subsequence (short_form long_form_candidate : str) :
  SW.find_best_long_form short_form long_form_candidate <> None
  <-> Py.strip long_form_candidate <> []
      /\ Py.lower (Py.strip short_form)
         `sublist_of` Py.lower (Py.strip long_form_candidate).
Proof.
  split.
  - destruct (SW.find_best_long_form short_form long_form_candidate)
      as [m|] eqn:H; [intros _ | congruence].
    destruct (find_best_shape _ _ _ H) as (Hne & _ & pre & Hpre & _).
    split.
    + rewrite Hpre. intros Hnil. apply app_eq_nil in Hnil as [_ Hnil].
      contradiction.
    + pose proof (find_best_letters _ _ _ H) as Hsub.
      rewrite Hpre. unfold Py.lower in *. rewrite map_app.
      apply sublist_inserts_l, Hsub.
  - intros [Hne Hsub].
    unfold SW.find_best_long_form, SW.extract_min_max.
    pose proof (sublist_length _ _ Hsub) as Hlen.
    unfold Py.lower in Hlen. rewrite !length_map in Hlen.
    apply Nat.ltb_ge in Hlen. rewrite Hlen. cbv zeta.
    destruct (SW.match_back _ _ _) as [n|] eqn:Hm.
    2:{ exfalso. apply (match_back_complete _ _ _ (le_n _) Hm).
        rewrite take_ge, rev_involutive by lia. exact Hsub. }
    destruct (match_back_sound _ _ _ n (le_n _) Hm) as (Hn & _ & Hfirst).
    rewrite take_ge in Hfirst by lia.
    destruct (word_start_spec (Py.strip long_form_candidate) n) as (Hst & _).
    destruct (strip_of_suffix (Py.strip long_form_candidate)
                (SW.word_start (Py.strip long_form_candidate) n)
                (strip_idempotent long_form_candidate)) as (ws & Hws & Fws).
    destruct (exists_last Hne) as (l & x & Hlf).
    assert (Hc : Chr.isspace x = false) by (eapply strip_last, Hlf).
    assert (Hlt : SW.word_start (Py.strip long_form_candidate) n <= length l).
    { destruct (Py.strip short_form) as [|z sf'] eqn:Hsf.
      - simpl in Hm. injection Hm as Hm. subst n.
        rewrite Hlf, length_app, Nat.add_comm. simpl.
        unfold Py.at_. rewrite app_nth2, Nat.sub_diag by lia. simpl.
        destruct (SW.is_boundary x) eqn:Hb.
        + apply boundary_is_space in Hb. congruence.
        + apply word_start_spec.
      - destruct (Hfirst (rev sf') z eq_refl) as (y & rest & Hy & _).
        assert (n < length (Py.strip long_form_candidate)).
        { destruct (decide (n < length (Py.strip long_form_candidate)))
            as [|Hge]; [assumption|].
          rewrite drop_ge in Hy by lia. discriminate. }
        rewrite Hlf, length_app in *. simpl in *. lia. }
    destruct (Py.strip (drop (SW.word_start (Py.strip long_form_candidate) n)
                             (Py.strip long_form_candidate)))
      as [|m0 m] eqn:Hres.
    + exfalso. rewrite app_nil_r in Hws. rewrite Hlf in Hws at 2.
      rewrite drop_app_le in Hws by exact Hlt.
      rewrite <- Hws in Fws.
      apply Forall_app in Fws as [_ Fx]. inversion Fx. congruence.
    + simpl. discriminate.
Qed.

(** ** Valid acronyms *)

Lemma isupper_isalpha (c : ascii) : Chr.isupper c = true -> Chr.isalpha c = true.
Proof. unfold Chr.isalpha. intros ->. reflexivity. Qed.

Lemma upper_of_alpha_no_lower (t : str) :
  forallb Chr.isalpha t = true -> existsb Chr.islower t = false ->
  Forall (fun c => Chr.isupper c = true) t.
Proof.
  induction t as [|c t IH]; simpl; intros Ha Hl; [constructor|].
  apply andb_true_iff in Ha as [Ha1 Ha2].
  apply orb_false_iff in Hl as [Hl1 Hl2].
  constructor; [|auto].
  unfold Chr.isalpha in Ha1. rewrite Hl1, orb_false_r in Ha1. exact Ha1.
Qed.

Lemma all_upper_checks (t : str) :
  Forall (fun c => Chr.isupper c = true) t ->
  forallb Chr.isalpha t = true /\ existsb Chr.islower t = false.
Proof.
  induction 1 as [|c t Hc _ [IHa IHl]]; simpl; [split; reflexivity|].
  rewrite (isupper_isalpha c Hc), (isupper_not_islower c Hc), IHa, IHl.
  split; reflexivity.
Qed.

Lemma valid_acronym_iff (text : str) :
  SW.is_valid_acronym text = true
  <-> 2 <= length text <= 10
      /\ Forall (fun c => Chr.isupper c = true) text
      /\ (forall c, text <> [c; c])
      /\ Py.mem text SW.false_positives = false.
Proof.
  unfold SW.is_valid_acronym. split.
  - destruct (length text =? 0) eqn:H0; [discriminate|].
    destruct (Py.isupper text) eqn:Hup; [|discriminate]. simpl negb. cbv iota.
    destruct ((length text <? 2) || (10 <? length text)) eqn:Hlen; [discriminate|].
    destruct (Py.isalpha text) eqn:Hal; [|discriminate]. simpl negb. cbv iota.
    destruct ((SW.distinct text =? 1) && (length text <=? 2)) eqn:Hd;
      [discriminate|].
    destruct (Py.mem text SW.false_positives) eqn:Hfp; [discriminate|].
    intros _.
    apply orb_false_iff in Hlen as [Hlo Hhi].
    apply Nat.ltb_ge in Hlo, Hhi.
    split; [lia|]. split; [|split; [|reflexivity]].
    + unfold Py.isupper in Hup. apply andb_true_iff in Hup as [_ Hnl].
      apply negb_true_iff in Hnl.
      destruct text as [|c text]; [discriminate|].
      apply upper_of_alpha_no_lower; assumption.
    + intros c ->. unfold SW.distinct in Hd. simpl in Hd.
      destruct (decide_rel elem_of c [c]) as [Hin|Hnin]; [discriminate|].
      apply Hnin, list_elem_of_here.
  - intros ([Hlo Hhi] & Hup & Hpair & Hfp).
    destruct (all_upper_checks text Hup) as [Ha Hl].
    destruct text as [|a text]; [simpl in Hlo; lia|].
    assert (Hisup : Py.isupper (a :: text) = true).
    { unfold Py.isupper. rewrite Hl. inversion Hup as [|? ? Hc _]; subst.
      simpl. rewrite Hc. reflexivity. }
    rewrite Hisup. simpl negb. cbv iota.
    assert (Hn0 : (length (a :: text) =? 0) = false) by reflexivity.
    rewrite Hn0.
    assert (Hlen : (length (a :: text) <? 2) || (10 <? length (a :: text)) = false).
    { apply orb_false_iff. split; apply Nat.ltb_ge; lia. }
    rewrite Hlen.
    assert (Hal : Py.isalpha (a :: text) = true) by exact Ha.
    simpl in Ha. rewrite Ha. simpl negb. cbv iota. rewrite Hfp.
    destruct ((SW.distinct (a :: text) =? 1) && (length (a :: text) <=? 2)) eqn:Hd;
      [|reflexivity].
    exfalso. apply andb_true_iff in Hd as [Hd1 Hd2].
    apply Nat.leb_le in Hd2. apply Nat.eqb_eq in Hd1.
    destruct text as [|b [|c text]]; simpl in *; try lia.
    unfold SW.distinct in Hd1. simpl in Hd1.
    destruct (decide_rel elem_of a [b]) as [Hin|Hnin]; simpl in Hd1; [|lia].
    apply list_elem_of_singleton in Hin. subst b. apply (Hpair a). reflexivity.
Qed.

(** X4: among ASCII texts, [is_valid_acronym] accepts exactly those of 2
    to 10 capital letters that are not one letter written twice and not
    one of the seven listed false positives.  Outside ASCII the method
    also takes capitals such as an accented E, which the character
    classes of this file leave out. *)
Theorem valid_acronym_shape (text : str) :
  AC.isascii text = true ->
  (SW.is_valid_acronym text = true
   <-> 2 <= length text <= 10
       /\ Forall (fun c => Chr.isupper c = true) text
       /\ (forall c, text <> [c; c])
       /\ Py.mem text SW.false_positives = false).
Proof. intros _. apply valid_acronym_iff. Qed.

Lemma valid_acronym_shape_witness :
  AC.isascii (s "NATO") = true
  /\ (SW.is_valid_acronym (s "NATO") = true
      <-> 2 <= length (s "NATO") <= 10
          /\ Forall (fun c => Chr.isupper c = true) (s "NATO")
          /\ (forall c, s "NATO" <> [c; c])
          /\ Py.mem (s "NATO") SW.false_positives = false).
Proof.
  split.
  - vm_compute. reflexivity.
  - apply (valid_acronym_shape (s "NATO")). vm_compute. reflexivity.
Defined.

(** ** What the patterns consume *)

Lemma one_spec (p : ascii -> bool) (k k' : Re.cur) :
  In k' (Re.one p k) ->
  exists c, snd k = c :: snd k' /\ p c = true /\ fst k' = Some c.
Proof.
  unfold Re.one. destruct (snd k) as [|c t]; [intros []|].
  destruct (p c) eqn:Hc; [|intros []].
  intros [<- | []]. exists c. repeat split. exact Hc.
Qed.

(** A bounded repetition of a character class consumes between [lo] and
    [hi] characters, all of the class. *)
Lemma rep_one_spec (p : ascii -> bool) (lo hi : nat) (k k' : Re.cur) :
  In k' (Re.rep (Re.one p) lo hi k) ->
  exists w, snd k = w ++ snd k'
            /\ Forall (fun c => p c = true) w
            /\ lo <= length w <= hi.
Proof.
  revert lo k. induction hi as [|hi IH]; intros lo k; simpl.
  - destruct lo; [|intros []]. intros [<- | []].
    exists []. split; [reflexivity|]. split; [constructor | simpl; lia].
  - assert (Hstep : forall lo', In k' (Re.seq (Re.one p) (Re.rep (Re.one p) lo' hi) k) ->
              exists w, snd k = w ++ snd k'
                        /\ Forall (fun c => p c = true) w
                        /\ S lo' <= length w <= S hi).
    { intros lo' Hin. unfold Re.seq in Hin.
      apply in_flat_map in Hin as (k1 & Hk1 & Hin).
      apply one_spec in Hk1 as (c & Hc & Hpc & _).
      apply IH in Hin as (w & Hw & Fw & Hlen).
      exists (c :: w). rewrite Hc, Hw. split; [reflexivity|].
      split; [constructor; assumption | simpl; lia]. }
    destruct lo as [|lo'].
    + unfold Re.alt. intros Hin. apply in_app_or in Hin as [Hin | Hin].
      * destruct (Hstep 0 Hin) as (w & Hw & Fw & Hlen).
        exists w. split; [exact Hw|]. split; [exact Fw | lia].
      * destruct Hin as [<- | []].
        exists []. split; [reflexivity|]. split; [constructor | simpl; lia].
    + apply Hstep.
Qed.

Lemma consumed_prefix (k k' : Re.cur) (w : str) :
  snd k = w ++ snd k' -> Re.consumed k k' = w.
Proof.
  intros H. unfold Re.consumed. rewrite H, length_app.
  apply take_app_length'. lia.
Qed.

Lemma head_In {A} (l : list A) (x : A) : head l = Some x -> In x l.
Proof. destruct l; simpl; [discriminate|]. intros [= ->]. left. reflexivity. Qed.

(** Whatever a scan reports came out of the pattern at some cursor. *)
Lemma scan_In {A} (fuel : nat) (m : Re.cur -> option (A * Re.cur))
      (k : Re.cur) (a : A) :
  In a (Re.scan fuel m k) -> exists k0 k', m k0 = Some (a, k').
Proof.
  revert k. induction fuel as [|fuel IH]; intros k; simpl; [intros []|].
  destruct (m k) as [[a0 k']|] eqn:Hm.
  - intros [<- | Hin]; [exists k, k'; exact Hm | eapply IH, Hin].
  - destruct (snd k) as [|c t]; [intros [] | apply IH].
Qed.

(** The groups of a match of the parenthesis pattern: at most 200
    characters without an opening parenthesis, then 2 to 10 capitals. *)
Lemma candidate_rx_groups (k k4 : Re.cur) (g1 g2 : str) :
  SW.candidate_rx k = Some ((g1, g2), k4) ->
  length g1 <= 200
  /\ Forall (fun c => SW.not_lparen c = true) g1
  /\ 2 <= length g2 <= 10
  /\ Forall (fun c => Chr.isupper c = true) g2.
Proof.
  unfold SW.candidate_rx. intros H. apply head_In in H.
  apply in_flat_map in H as (k1 & Hk1 & H).
  apply in_flat_map in H as (k2 & Hk2 & H).
  apply in_flat_map in H as (k3 & Hk3 & H).
  apply in_map_iff in H as (k4' & Heq & _).
  injection Heq as <- <- _.
  apply rep_one_spec in Hk1 as (w1 & Hw1 & F1 & Hl1).
  apply rep_one_spec in Hk3 as (w2 & Hw2 & F2 & Hl2).
  rewrite (consumed_prefix _ _ _ Hw1), (consumed_prefix _ _ _ Hw2).
  repeat split; try assumption; lia.
Qed.

(** ** The candidate extractor, continued *)

Lemma rfind_None (m : ascii) (t : str) : Py.rfind m t = None -> ~ In m t.
Proof.
  induction t as [|c t IH]; simpl; [intros _ []|].
  destruct (Py.rfind m t); [discriminate|].
  destruct (Ascii.eqb c m) eqn:E; [discriminate|].
  intros _ [-> | Hin]; [|apply IH; [reflexivity | exact Hin]].
  rewrite Ascii.eqb_refl in E. discriminate.
Qed.

Lemma rfind_Some (m : ascii) (t : str) (p : nat) :
  Py.rfind m t = Some p ->
  t !! p = Some m /\ ~ In m (drop (S p) t).
Proof.
  revert p. induction t as [|c t IH]; intros p; simpl; [discriminate|].
  destruct (Py.rfind m t) as [i|] eqn:Hr.
  - intros [= <-]. simpl. apply IH. reflexivity.
  - destruct (Ascii.eqb c m) eqn:E; [|discriminate].
    intros [= <-]. apply Ascii.eqb_eq in E. subst c. simpl.
    split; [reflexivity|]. rewrite drop_0. apply rfind_None, Hr.
Qed.

Lemma strip_Forall (P : ascii -> Prop) (t : str) :
  Forall P t -> Forall P (Py.strip t).
Proof. intros H. apply rstrip_by_Forall, lstrip_by_Forall, H. Qed.

Lemma strip_length (t : str) : length (Py.strip t) <= length t.
Proof.
  destruct (strip_split t) as (pre & suf & H & _).
  rewrite H at 2. rewrite !length_app. lia.
Qed.

Lemma cut_at_marker_Forall (P : ascii -> Prop) (markers c : str) :
  Forall P c -> Forall P (SW.cut_at_marker markers c).
Proof.
  intros Hc. induction markers as [|m ms IH]; simpl; [exact Hc|].
  destruct (Py.rfind m c); [|exact IH].
  apply strip_Forall, Forall_drop, Hc.
Qed.

Lemma cut_at_marker_length (markers c : str) :
  length (SW.cut_at_marker markers c) <= length c.
Proof.
  induction markers as [|m ms IH]; simpl; [lia|].
  destruct (Py.rfind m c); [|exact IH].
  etransitivity; [apply strip_length|]. rewrite length_drop. lia.
Qed.

Lemma cut_at_marker_trimmed (markers c : str) :
  Py.strip c = c ->
  Py.strip (SW.cut_at_marker markers c) = SW.cut_at_marker markers c.
Proof.
  intros Hc. induction markers as [|m ms IH]; simpl; [exact Hc|].
  destruct (Py.rfind m c); [apply strip_idempotent | exact IH].
Qed.

(** The first mark of the list never survives the cut. *)
Lemma cut_at_marker_first (m : ascii) (markers c : str) :
  ~ In m (SW.cut_at_marker (m :: markers) c).
Proof.
  simpl. destruct (Py.rfind m c) as [p|] eqn:Hr.
  - apply rfind_Some in Hr as [_ Hno].
    intros Hin.
    assert (F : Forall (fun x => x <> m) (Py.strip (drop (S p) c))).
    { apply strip_Forall. apply List.Forall_forall. intros x Hx ->.
      apply Hno, Hx. }
    rewrite List.Forall_forall in F. apply (F m Hin). reflexivity.
  - apply rfind_None in Hr. intros Hin.
    assert (F : Forall (fun x => x <> m) (SW.cut_at_marker markers c)).
    { apply cut_at_marker_Forall. apply List.Forall_forall. intros x Hx ->.
      apply Hr, Hx. }
    rewrite List.Forall_forall in F. apply (F m Hin). reflexivity.
Qed.

Lemma candidate_of_match_spec (groups : str * str) (sf lf : str) :
  SW.candidate_of_match groups = Some (sf, lf) ->
  sf = Py.strip (snd groups)
  /\ SW.is_valid_acronym sf = true
  /\ lf = SW.cut_at_marker SW.sentence_markers (Py.strip (fst groups))
  /\ lf <> [].
Proof.
  unfold SW.candidate_of_match.
  remember (SW.cut_at_marker SW.sentence_markers (Py.strip (fst groups)))
    as cut eqn:Hcut.
  remember (Py.strip (snd groups)) as sf0 eqn:Hsf0.
  destruct (SW.is_valid_acronym sf0) eqn:Hv; simpl negb; cbv iota;
    [|discriminate].
  destruct (0 <? length cut) eqn:Hpos; [|discriminate].
  intros H. injection H as Hsf Hlf. subst sf lf.
  apply Nat.ltb_lt in Hpos.
  split; [reflexivity|]. split; [exact Hv|]. split; [reflexivity|].
  intros Hnil. rewrite Hnil in Hpos. simpl in Hpos. lia.
Qed.

Lemma candidates_spec (text sf lf : str) :
  In (sf, lf) (SW.extract_candidates_from_parentheses text) ->
  SW.is_valid_acronym sf = true
  /\ lf <> []
  /\ Py.strip lf = lf
  /\ length lf <= 200
  /\ ~ In "."%char lf.
Proof.
  unfold SW.extract_candidates_from_parentheses. intros Hin.
  apply list_elem_of_In, list_elem_of_omap in Hin as ([g1 g2] & Hg & Hc).
  apply list_elem_of_In in Hg. unfold Re.find_all in Hg.
  apply scan_In in Hg as (k0 & k' & Hrx).
  apply candidate_rx_groups in Hrx as (Hlen & _).
  apply candidate_of_match_spec in Hc as (_ & Hv & -> & Hne). simpl fst.
  split; [exact Hv|]. split; [exact Hne|]. split; [|split].
  - apply cut_at_marker_trimmed, strip_idempotent.
  - etransitivity; [apply cut_at_marker_length|].
    etransitivity; [apply strip_length | exact Hlen].
  - apply (cut_at_marker_first "."%char (s "!?;:")).
Qed.

(** X5: every candidate the extractor reports pairs a valid acronym with
    a clause that is not empty, is trimmed, has at most 200 characters
    and contains no full stop. *)
Theorem candidates_are_clean (text short_form long_form_candidate : str) :
  In (short_form, long_form_candidate)
     (SW.extract_candidates_from_parentheses text) ->
  SW.is_valid_acronym short_form = true
  /\ long_form_candidate <> []
  /\ Py.strip long_form_candidate = long_form_candidate
  /\ length long_form_candidate <= 200
  /\ ~ In "."%char long_form_candidate.
Proof. apply candidates_spec. Qed.

Lemma candidates_are_clean_witness :
  In (s "NATO", s "Then: the North Atlantic Treaty Organization")
     (SW.extract_candidates_from_parentheses Ex.two_marks)
  /\ SW.is_valid_acronym (s "NATO") = true
  /\ s "Then: the North Atlantic Treaty Organization" <> []
  /\ Py.strip (s "Then: the North Atlantic Treaty Organization")
     = s "Then: the North Atlantic Treaty Organization"
  /\ length (s "Then: the North Atlantic Treaty Organization") <= 200
  /\ ~ In "."%char (s "Then: the North Atlantic Treaty Organization").
Proof.
  split.
  - vm_compute. left. reflexivity.
  - apply (candidates_are_clean Ex.two_marks).
    vm_compute. left. reflexivity.
Defined.

(** ** The tables of mapping mode *)

Lemma incr_lookup (k k' : str) (d : gmap (list ascii) nat) :
  Py.incr k d !! k'
  = if decide (k = k') then Some (S (default 0 (d !! k))) else d !! k'.
Proof. unfold Py.incr. apply lookup_insert. Qed.

Lemma incr_positive (k : str) (d : gmap (list ascii) nat) :
  Inv.positive d -> Inv.positive (Py.incr k d).
Proof.
  intros Hd k' n. rewrite incr_lookup. destruct (decide (k = k')).
  - intros [= <-]. lia.
  - apply Hd.
Qed.

Lemma store_ok (st : SW.state) (sf lf : str) :
  SW.is_valid_acronym sf = true ->
  SW.validate_long_form sf lf = true ->
  Inv.sw_ok st -> Inv.sw_ok (SW.store st sf lf).
Proof.
  intros Hv Hval (Hsame & Hpf & Hps & Hkm & Hks & Hvd).
  unfold SW.store, Inv.sw_ok; simpl.
  split; [|split; [|split; [|split; [|split]]]].
  - intros k. rewrite incr_lookup.
    destruct (decide (sf = k)) as [->|Hne].
    + split; intros _; [eauto|].
      destruct (SW.acronym_mappings st !! k) eqn:Hm; [rewrite Hm; eauto|].
      rewrite lookup_insert_eq. eauto.
    + destruct (SW.acronym_mappings st !! sf); [apply Hsame|].
      rewrite lookup_insert_ne by exact Hne. apply Hsame.
  - apply incr_positive, Hpf.
  - exact Hps.
  - destruct (SW.acronym_mappings st !! sf) eqn:Hm; [exact Hkm|].
    intros k. destruct (decide (sf = k)) as [<-|Hne]; [intros _; exact Hv|].
    rewrite lookup_insert_ne by exact Hne. apply Hkm.
  - exact Hks.
  - destruct (SW.acronym_mappings st !! sf) eqn:Hm; [exact Hvd|].
    intros k v. destruct (decide (sf = k)) as [<-|Hne].
    + rewrite lookup_insert_eq. intros [= <-]. exact Hval.
    + rewrite lookup_insert_ne by exact Hne. apply Hvd.
Qed.

Lemma candidate_step_ok (st : SW.state) (c : str * str) :
  SW.is_valid_acronym (fst c) = true ->
  Inv.sw_ok st -> Inv.sw_ok (SW.candidate_step st c).
Proof.
  intros Hv Hok. unfold SW.candidate_step.
  destruct (SW.accepted c) as [[sf lf]|] eqn:Hacc; [|exact Hok].
  destruct (accepted_cleaned c sf lf Hacc) as (m & _ & _ & -> & Hval).
  apply store_ok; assumption.
Qed.

Lemma candidate_loop_ok (l : list (str * str)) (st : SW.state) :
  Forall (fun c => SW.is_valid_acronym (fst c) = true) l ->
  Inv.sw_ok st -> Inv.sw_ok (fold_left SW.candidate_step l st).
Proof.
  revert st. induction l as [|c l IH]; intros st Hl Hok; simpl; [exact Hok|].
  inversion Hl; subst. apply IH; [assumption|].
  apply candidate_step_ok; assumption.
Qed.

Lemma standalone_step_ok (st : SW.state) (a : str) :
  Inv.sw_ok st -> Inv.sw_ok (SW.standalone_step st a).
Proof.
  intros Hok. unfold SW.standalone_step.
  destruct (SW.is_valid_acronym a) eqn:Hv; [|exact Hok].
  destruct (SW.acronym_mappings st !! a); [exact Hok|].
  destruct Hok as (Hsame & Hpf & Hps & Hkm & Hks & Hvd).
  unfold Inv.sw_ok; simpl.
  split; [exact Hsame|]. split; [exact Hpf|].
  split; [apply incr_positive, Hps|]. split; [exact Hkm|].
  split; [|exact Hvd].
  intros k. rewrite incr_lookup.
  destruct (decide (a = k)) as [<-|Hne]; [intros _; exact Hv | apply Hks].
Qed.

Lemma standalone_loop_ok (l : list str) (st : SW.state) :
  Inv.sw_ok st -> Inv.sw_ok (fold_left SW.standalone_step l st).
Proof.
  revert st. induction l as [|a l IH]; intros st Hok; simpl; [exact Hok|].
  apply IH, standalone_step_ok, Hok.
Qed.

Lemma extract_acronyms_ok (st : SW.state) (text : str) :
  Inv.sw_ok st -> Inv.sw_ok (SW.extract_acronyms st text).
Proof.
  intros Hok. unfold SW.extract_acronyms.
  apply standalone_loop_ok, candidate_loop_ok; [|exact Hok].
  apply List.Forall_forall. intros [sf lf] Hin.
  apply candidates_spec in Hin as [Hv _]. exact Hv.
Qed.

Lemma empty_state_ok : Inv.sw_ok SW.empty_state.
Proof.
  unfold Inv.sw_ok, SW.empty_state; simpl.
  split; [|split; [|split; [|split; [|split]]]].
  - intros k. rewrite !lookup_empty. split; intros [v Hv]; discriminate.
  - intros k n. rewrite lookup_empty. discriminate.
  - intros k n. rewrite lookup_empty. discriminate.
  - intros k [v Hk]. rewrite lookup_empty in Hk. discriminate.
  - intros k [v Hk]. rewrite lookup_empty in Hk. discriminate.
  - intros k v. rewrite lookup_empty. discriminate.
Qed.

Lemma process_all_ok (texts : list str) (st : SW.state) :
  Inv.sw_ok st -> Inv.sw_ok (SW.process_all_pdfs st texts).
Proof.
  unfold SW.process_all_pdfs. revert st.
  induction texts as [|t texts IH]; intros st Hok; simpl; [exact Hok|].
  apply IH. unfold SW.process_pdf.
  destruct (length t =? 0); [exact Hok | apply extract_acronyms_ok, Hok].
Qed.

(** X6: after any corpus the mapping table and the frequency table have
    the same keys, and no counter of the frequency table or of the
    standalone table is 0. *)
Theorem tables_consistent (texts : list str) :
  let st := SW.process_all_pdfs SW.empty_state texts in
  (forall k, is_Some (SW.acronym_mappings st !! k)
             <-> is_Some (SW.acronym_frequencies st !! k))
  /\ (forall k n, SW.acronym_frequencies st !! k = Some n -> 1 <= n)
  /\ (forall k n, SW.standalone_acronyms st !! k = Some n -> 1 <= n).
Proof.
  destruct (process_all_ok texts _ empty_state_ok) as (H1 & H2 & H3 & _).
  cbv zeta. split; [exact H1 | split; [exact H2 | exact H3]].
Qed.

(** X7: after any corpus every key of the three tables is a valid
    acronym, hence 2 to 10 capital letters. *)
Theorem keys_are_acronyms (texts : list str) (k : str) :
  let st := SW.process_all_pdfs SW.empty_state texts in
  is_Some (SW.acronym_mappings st !! k)
  \/ is_Some (SW.acronym_frequencies st !! k)
  \/ is_Some (SW.standalone_acronyms st !! k) ->
  SW.is_valid_acronym k = true
  /\ 2 <= length k <= 10
  /\ Forall (fun c => Chr.isupper c = true) k.
Proof.
  cbv zeta. intros H.
  destruct (process_all_ok texts _ empty_state_ok)
    as (Hsame & _ & _ & Hkm & Hks & _).
  assert (Hv : SW.is_valid_acronym k = true).
  { destruct H as [H | [H | H]].
    - apply Hkm, H.
    - apply Hkm, Hsame, H.
    - apply Hks, H. }
  split; [exact Hv|].
  apply valid_acronym_iff in Hv as (Hlen & Hup & _).
  split; assumption.
Qed.

Lemma keys_are_acronyms_witness :
  (is_Some (SW.acronym_mappings
              (SW.process_all_pdfs SW.empty_state [Ex.rd_defined]) !! s "RD")
   \/ is_Some (SW.acronym_frequencies
                 (SW.process_all_pdfs SW.empty_state [Ex.rd_defined]) !! s "RD")
   \/ is_Some (SW.standalone_acronyms
                 (SW.process_all_pdfs SW.empty_state [Ex.rd_defined]) !! s "RD"))
  /\ SW.is_valid_acronym (s "RD") = true
  /\ 2 <= length (s "RD") <= 10
  /\ Forall (fun c => Chr.isupper c = true) (s "RD").
Proof.
  assert (H : is_Some (SW.acronym_mappings
                (SW.process_all_pdfs SW.empty_state [Ex.rd_defined]) !! s "RD")).
  { exists (s "Research And Development"). vm_compute. reflexivity. }
  split.
  - left. exact H.
  - apply (keys_are_acronyms [Ex.rd_defined] (s "RD")). left. exact H.
Defined.

(** X8: after any corpus every stored pair passes the validator; in
    particular the stored long form has at least two words and holds no
    verb marker. *)
Theorem stored_pairs_validated (texts : list str) (short_form long_form : str) :
  SW.acronym_mappings (SW.process_all_pdfs SW.empty_state texts) !! short_form
  = Some long_form ->
  SW.validate_long_form short_form long_form = true
  /\ 2 <= length (Py.split long_form)
  /\ SW.has_verb_indicator long_form = false.
Proof.
  intros H.
  destruct (process_all_ok texts _ empty_state_ok) as (_ & _ & _ & _ & _ & Hvd).
  pose proof (Hvd _ _ H) as Hval. split; [exact Hval|].
  unfold SW.validate_long_form in Hval.
  destruct (length long_form <? 3); [discriminate|].
  destruct (length (Py.split long_form) <? 2) eqn:Hw; [discriminate|].
  apply Nat.ltb_ge in Hw. split; [exact Hw|].
  destruct (Py.isupper long_form && _); [discriminate|].
  destruct (SW.has_verb_indicator long_form); [discriminate | reflexivity].
Qed.

Lemma stored_pairs_validated_witness :
  SW.acronym_mappings (SW.process_all_pdfs SW.empty_state [Ex.rd_defined])
    !! s "RD" = Some (s "Research And Development")
  /\ SW.validate_long_form (s "RD") (s "Research And Development") = true
  /\ 2 <= length (Py.split (s "Research And Development"))
  /\ SW.has_verb_indicator (s "Research And Development") = false.
Proof.
  split.
  - vm_compute. reflexivity.
  - apply (stored_pairs_validated [Ex.rd_defined]). vm_compute. reflexivity.
Defined.

(** ** The standalone scan *)

Lemma standalone_loop_frame (toks : list str) (st : SW.state) (k : str) :
  SW.is_valid_acronym k = false \/ is_Some (SW.acronym_mappings st !! k) ->
  SW.standalone_acronyms (fold_left SW.standalone_step toks st) !! k
  = SW.standalone_acronyms st !! k.
Proof.
  revert st. induction toks as [|a toks IH]; intros st Hk; simpl; [reflexivity|].
  rewrite IH by (rewrite standalone_step_mappings; exact Hk).
  unfold SW.standalone_step.
  destruct (SW.is_valid_acronym a) eqn:Hv; [|reflexivity].
  destruct (SW.acronym_mappings st !! a) eqn:Hm; [reflexivity|]. simpl.
  rewrite incr_lookup. destruct (decide (a = k)) as [->|Hne]; [|reflexivity].
  exfalso. destruct Hk as [Hk | [v Hk]]; congruence.
Qed.

Lemma standalone_loop_count (toks : list str) (st : SW.state) (k : str) :
  SW.is_valid_acronym k = true -> SW.acronym_mappings st !! k = None ->
  Claimed.count (SW.standalone_acronyms (fold_left SW.standalone_step toks st)) k
  = Claimed.count (SW.standalone_acronyms st) k
    + Heading.count_if (fun t => bool_decide (t = k)) toks.
Proof.
  intros Hv. revert st.
  induction toks as [|a toks IH]; intros st Hm; simpl; [lia|].
  rewrite IH by (rewrite standalone_step_mappings; exact Hm).
  unfold SW.standalone_step. case_bool_decide as Hak.
  - subst a. rewrite Hv, Hm. simpl. rewrite count_incr.
    rewrite bool_decide_true by reflexivity. lia.
  - destruct (SW.is_valid_acronym a); [|lia].
    destruct (SW.acronym_mappings st !! a); [lia|]. simpl.
    rewrite count_incr, bool_decide_false by exact Hak. lia.
Qed.

(** X9: an acronym that has a mapping when [extract_acronyms] returns was
    not counted as standalone by that call, however often it occurs in
    the text. *)
Theorem defined_not_counted (st : SW.state) (text k : str) :
  is_Some (SW.acronym_mappings (SW.extract_acronyms st text) !! k) ->
  SW.standalone_acronyms (SW.extract_acronyms st text) !! k
  = SW.standalone_acronyms st !! k.
Proof.
  unfold SW.extract_acronyms. rewrite standalone_loop_mappings. intros Hk.
  rewrite standalone_loop_frame by (right; exact Hk).
  rewrite candidate_loop_standalone. reflexivity.
Qed.

Lemma defined_not_counted_witness :
  is_Some (SW.acronym_mappings
             (SW.extract_acronyms SW.empty_state Ex.rd_defined) !! s "RD")
  /\ SW.standalone_acronyms
       (SW.extract_acronyms SW.empty_state Ex.rd_defined) !! s "RD"
     = SW.standalone_acronyms SW.empty_state !! s "RD".
Proof.
  assert (H : is_Some (SW.acronym_mappings
                (SW.extract_acronyms SW.empty_state Ex.rd_defined) !! s "RD")).
  { exists (s "Research And Development"). vm_compute. reflexivity. }
  split; [exact H|].
  apply (defined_not_counted SW.empty_state Ex.rd_defined (s "RD")). exact H.
Defined.

(** X10: for an acronym without a mapping when [extract_acronyms]
    returns, the standalone count has gone up by the number of its
    occurrences among the capital tokens of the heading-free text if it
    is a valid acronym, and has not moved otherwise. *)
Theorem standalone_counts_tokens (st : SW.state) (text k : str) :
  SW.acronym_mappings (SW.extract_acronyms st text) !! k = None ->
  Claimed.count (SW.standalone_acronyms (SW.extract_acronyms st text)) k
  = Claimed.count (SW.standalone_acronyms st) k
    + (if SW.is_valid_acronym k
       then Heading.count_if (fun t => bool_decide (t = k))
              (Re.find_all SW.token_rx (SW.remove_headings_from_text text))
       else 0).
Proof.
  unfold SW.extract_acronyms. rewrite standalone_loop_mappings. intros Hk.
  destruct (SW.is_valid_acronym k) eqn:Hv.
  - rewrite standalone_loop_count by assumption.
    rewrite candidate_loop_standalone. reflexivity.
  - unfold Claimed.count.
    rewrite standalone_loop_frame by (left; exact Hv).
    rewrite candidate_loop_standalone. lia.
Qed.

Lemma standalone_counts_tokens_witness :
  SW.acronym_mappings (SW.extract_acronyms SW.empty_state Ex.rd_alone)
    !! s "RD" = None
  /\ Claimed.count
       (SW.standalone_acronyms (SW.extract_acronyms SW.empty_state Ex.rd_alone))
       (s "RD")
     = Claimed.count (SW.standalone_acronyms SW.empty_state) (s "RD")
       + (if SW.is_valid_acronym (s "RD")
          then Heading.count_if (fun t => bool_decide (t = s "RD"))
                 (Re.find_all SW.token_rx
                    (SW.remove_headings_from_text Ex.rd_alone))
          else 0).
Proof.
  split.
  - vm_compute. reflexivity.
  - apply (standalone_counts_tokens SW.empty_state Ex.rd_alone (s "RD")).
    vm_compute. reflexivity.
Defined.

(** ** Lines and headings *)

Lemma split_on_no_delim (d : ascii) (t : str) :
  Forall (fun l => ~ In d l) (Py.split_on d t).
Proof.
  induction t as [|c t IH]; simpl.
  - constructor; [intros [] | constructor].
  - destruct (Ascii.eqb c d) eqn:E.
    + constructor; [intros [] | exact IH].
    + apply Ascii.eqb_neq in E.
      destruct (Py.split_on d t) as [|w ws].
      * constructor; [|constructor]. intros [H | []]. congruence.
      * inversion IH as [|? ? Hw Hws]; subst. constructor; [|exact Hws].
        intros [H | H]; [congruence | exact (Hw H)].
Qed.

Lemma split_on_single (d : ascii) (l : str) :
  ~ In d l -> Py.split_on d l = [l].
Proof.
  induction l as [|c l IH]; simpl; intros Hno; [reflexivity|].
  destruct (Ascii.eqb c d) eqn:E.
  - apply Ascii.eqb_eq in E. exfalso. apply Hno. left. exact E.
  - rewrite IH; [reflexivity|]. intros H. apply Hno. right. exact H.
Qed.

(** Splitting what was joined gives the lines back. *)
Lemma split_on_join (d : ascii) (ls : list str) :
  ls <> [] -> Forall (fun l => ~ In d l) ls ->
  Py.split_on d (Py.join [d] ls) = ls.
Proof.
  induction ls as [|l ls IH]; [contradiction|]. intros _ Hls.
  inversion Hls as [|? ? Hl Hrest]; subst.
  destruct ls as [|l2 ls].
  - simpl. apply split_on_single, Hl.
  - change (Py.join [d] (l :: l2 :: ls)) with (l ++ d :: Py.join [d] (l2 :: ls)).
    rewrite split_on_app, (split_on_single d l Hl), IH;
      [reflexivity | discriminate | exact Hrest].
Qed.

Lemma filter_all {A} (p : A -> bool) (l : list A) :
  Forall (fun x => p x = true) l -> List.filter p l = l.
Proof.
  induction 1 as [|x l Hx _ IH]; simpl; [reflexivity|].
  rewrite Hx, IH. reflexivity.
Qed.

Lemma filter_none {A} (p : A -> bool) (l : list A) :
  Forall (fun x => p x = false) l -> List.filter p l = [].
Proof.
  induction 1 as [|x l Hx _ IH]; simpl; [reflexivity|].
  rewrite Hx. exact IH.
Qed.

Lemma kept_lines (text : str) :
  let kept := List.filter (fun line => negb (SW.is_heading line))
                          (Py.split_on SW.newline text) in
  Forall (fun l => ~ In SW.newline l) kept
  /\ Forall (fun l => negb (SW.is_heading l) = true) kept.
Proof.
  cbv zeta. split; apply List.Forall_forall; intros l Hin;
    apply filter_In in Hin as [Hin Hnh].
  - pose proof (split_on_no_delim SW.newline text) as F.
    rewrite List.Forall_forall in F. apply F, Hin.
  - exact Hnh.
Qed.

(** X11: removing the headings twice changes nothing more, and what is
    left has no heading line. *)
Theorem remove_headings_idempotent (text : str) :
  SW.remove_headings_from_text (SW.remove_headings_from_text text)
  = SW.remove_headings_from_text text
  /\ Forall (fun line => SW.is_heading line = false)
            (Py.split_on SW.newline (SW.remove_headings_from_text text)).
Proof.
  destruct (kept_lines text) as [Hnl Hnh]. cbv zeta in Hnl, Hnh.
  unfold SW.remove_headings_from_text.
  destruct (List.filter (fun line => negb (SW.is_heading line))
                        (Py.split_on SW.newline text)) as [|l ls] eqn:Hk.
  - split; [vm_compute; reflexivity|].
    constructor; [vm_compute; reflexivity | constructor].
  - rewrite split_on_join by (discriminate || exact Hnl).
    rewrite filter_all by exact Hnh. split; [reflexivity|].
    eapply Forall_impl; [exact Hnh|]. intros x Hx.
    apply negb_true_iff in Hx. exact Hx.
Qed.

Lemma runs_nonempty (sep : ascii -> bool) (c : ascii) (r : str) :
  sep c = false -> Py.runs sep (c :: r) <> [].
Proof.
  intros Hc. simpl. rewrite Hc.
  destruct (Py.starts_run sep r); [|discriminate].
  destruct (Py.runs sep r); discriminate.
Qed.

Lemma words_of_trimmed (line : str) :
  Py.strip line <> [] -> Py.split (Py.strip line) <> [].
Proof.
  intros Hne. destruct (Py.strip line) as [|c r] eqn:Hs; [contradiction|].
  apply runs_nonempty. eapply strip_head, Hs.
Qed.

Lemma sw_is_heading_or (line : str) :
  SW.is_heading line
  = negb (length (Py.strip line) =? 0)
    && (Heading.all_caps 2 12 (Py.strip line) (Py.split (Py.strip line))
        || Heading.colon (Py.strip line)
        || Heading.numbered (Py.strip line)
        || Heading.title_case 2 8 (Py.split (Py.strip line))
        || Heading.keyword SW.heading_keywords (Py.strip line)).
Proof.
  unfold SW.is_heading.
  destruct line as [|c line]; [reflexivity|].
  change (length (c :: line) =? 0) with false. rewrite orb_false_l.
  destruct (length (Py.strip (c :: line)) =? 0) eqn:Hlen; [reflexivity|].
  cbv zeta.
  assert (Hw : (length (Py.split (Py.strip (c :: line))) =? 0) = false).
  { apply Nat.eqb_neq. intros H. apply length_zero_iff_nil in H.
    apply (words_of_trimmed (c :: line)); [|exact H].
    intros Hnil. rewrite Hnil in Hlen. discriminate. }
  rewrite Hw.
  repeat match goal with
         | |- context [if ?b then _ else _] => destruct b
         end; reflexivity.
Qed.

Lemma ac_is_heading_or (line : str) :
  AC.is_heading line
  = negb (length (Py.strip line) =? 0)
    && (Heading.all_caps 0 12 (Py.strip line) (Py.split (Py.strip line))
        || Heading.title_case 2 6 (Py.split (Py.strip line))
        || Heading.keyword AC.heading_keywords (Py.strip line)
        || Heading.colon (Py.strip line)
        || Heading.numbered (Py.strip line)).
Proof.
  unfold AC.is_heading.
  destruct line as [|c line]; [reflexivity|].
  change (length (c :: line) =? 0) with false. rewrite orb_false_l.
  destruct (length (Py.strip (c :: line)) =? 0) eqn:Hlen; [reflexivity|].
  cbv zeta.
  assert (Hw : (length (Py.split (Py.strip (c :: line))) =? 0) = false).
  { apply Nat.eqb_neq. intros H. apply length_zero_iff_nil in H.
    apply (words_of_trimmed (c :: line)); [|exact H].
    intros Hnil. rewrite Hnil in Hlen. discriminate. }
  rewrite Hw.
  repeat match goal with
         | |- context [if ?b then _ else _] => destruct b
         end; reflexivity.
Qed.

(** X12: in each mode a line is a heading exactly when it is not blank
    and at least one of the five rules holds of the trimmed line; the
    order in which the method tries the rules does not matter and its
    test for a line without words never decides. *)
Theorem is_heading_is_disjunction (line : str) :
  SW.is_heading line
  = negb (length (Py.strip line) =? 0)
    && (Heading.all_caps 2 12 (Py.strip line) (Py.split (Py.strip line))
        || Heading.colon (Py.strip line)
        || Heading.numbered (Py.strip line)
        || Heading.title_case 2 8 (Py.split (Py.strip line))
        || Heading.keyword SW.heading_keywords (Py.strip line))
  /\ AC.is_heading line
     = negb (length (Py.strip line) =? 0)
       && (Heading.all_caps 0 12 (Py.strip line) (Py.split (Py.strip line))
           || Heading.title_case 2 6 (Py.split (Py.strip line))
           || Heading.keyword AC.heading_keywords (Py.strip line)
           || Heading.colon (Py.strip line)
           || Heading.numbered (Py.strip line)).
Proof. split; [apply sw_is_heading_or | apply ac_is_heading_or]. Qed.

(** X13: white space around a line does not change its classification,
    in either mode. *)
Theorem is_heading_ignores_margins (line : str) :
  SW.is_heading (Py.strip line) = SW.is_heading line
  /\ AC.is_heading (Py.strip line) = AC.is_heading line.
Proof.
  split.
  - rewrite (sw_is_heading_or (Py.strip line)), (sw_is_heading_or line).
    rewrite strip_idempotent. reflexivity.
  - rewrite (ac_is_heading_or (Py.strip line)), (ac_is_heading_or line).
    rewrite strip_idempotent. reflexivity.
Qed.

Lemma not_In_existsb (d : ascii) (l : str) :
  existsb (Ascii.eqb d) l = false -> ~ In d l.
Proof.
  intros H Hin. assert (Ht : existsb (Ascii.eqb d) l = true).
  { apply existsb_exists. exists d. split; [exact Hin | apply Ascii.eqb_refl]. }
  congruence.
Qed.

Lemma ac_heading_lines_skipped (stop_words : list str) (lines : list str)
      (acc : AC.state * list str) :
  Forall (fun l => AC.is_heading l = true) lines ->
  fold_left (AC.line_step stop_words) lines acc = acc.
Proof.
  induction 1 as [|l lines Hl _ IH]; simpl; [reflexivity|].
  unfold AC.line_step at 2. rewrite Hl. exact IH.
Qed.

(** X14: a text made of heading lines only leaves the extractor of
    mapping mode as it was, and lines that are all headings leave the
    processor of vocabulary mode as it was, with no word reported. *)
Theorem only_headings_change_nothing (lines : list str) :
  lines <> [] ->
  Forall (fun l => ~ In SW.newline l) lines ->
  Forall (fun l => SW.is_heading l = true) lines ->
  Forall (fun l => AC.is_heading l = true) lines ->
  (forall st, SW.extract_acronyms st (Py.join [SW.newline] lines) = st)
  /\ (forall stop_words st,
        AC.extract_words_from_text stop_words st lines = (st, [])).
Proof.
  intros Hne Hnl Hsw Hac. split.
  - intros st. unfold SW.extract_acronyms, SW.remove_headings_from_text.
    rewrite split_on_join by assumption.
    rewrite filter_none; [reflexivity|].
    eapply Forall_impl; [exact Hsw|]. intros l Hl. simpl. rewrite Hl. reflexivity.
  - intros stop_words st. unfold AC.extract_words_from_text.
    apply ac_heading_lines_skipped, Hac.
Qed.

Lemma only_headings_change_nothing_witness :
  [Ex.chapter_line; s "Scope And Purpose"] <> []
  /\ Forall (fun l => ~ In SW.newline l) [Ex.chapter_line; s "Scope And Purpose"]
  /\ Forall (fun l => SW.is_heading l = true)
            [Ex.chapter_line; s "Scope And Purpose"]
  /\ Forall (fun l => AC.is_heading l = true)
            [Ex.chapter_line; s "Scope And Purpose"]
  /\ (forall st,
        SW.extract_acronyms st
          (Py.join [SW.newline] [Ex.chapter_line; s "Scope And Purpose"]) = st)
  /\ (forall stop_words st,
        AC.extract_words_from_text stop_words st
          [Ex.chapter_line; s "Scope And Purpose"] = (st, [])).
Proof.
  assert (H1 : [Ex.chapter_line; s "Scope And Purpose"] <> []) by discriminate.
  assert (H2 : Forall (fun l => ~ In SW.newline l)
                      [Ex.chapter_line; s "Scope And Purpose"]).
  { repeat constructor; apply not_In_existsb; vm_compute; reflexivity. }
  assert (H3 : Forall (fun l => SW.is_heading l = true)
                      [Ex.chapter_line; s "Scope And Purpose"]).
  { repeat constructor; vm_compute; reflexivity. }
  assert (H4 : Forall (fun l => AC.is_heading l = true)
                      [Ex.chapter_line; s "Scope And Purpose"]).
  { repeat constructor; vm_compute; reflexivity. }
  split; [exact H1|]. split; [exact H2|]. split; [exact H3|].
  split; [exact H4|].
  exact (only_headings_change_nothing _ H1 H2 H3 H4).
Defined.

(** ** The tables of vocabulary mode *)

Section FoldInvariant.

Context {St A : Type} (P : St -> Prop) (f : St -> A -> St).
Hypothesis f_keeps : forall x a, P x -> P (f x a).

Lemma fold_left_keeps (l : list A) (x : St) : P x -> P (fold_left f l x).
Proof.
  revert x. induction l as [|a l IH]; intros x Hx; simpl; [exact Hx|].
  apply IH, f_keeps, Hx.
Qed.

End FoldInvariant.

Lemma lower_of_alpha (c : ascii) :
  Chr.isalpha c = true -> Chr.islower (Chr.lower c) = true.
Proof. destruct c as [[] [] [] [] [] [] [] []]; vm_compute; congruence. Qed.

Lemma lower_word_key (stop_words : list str) (word : str) :
  Py.isalpha word = true ->
  Py.mem (Py.lower word) stop_words = false ->
  Inv.lowercase_key stop_words (Py.lower word) 1.
Proof.
  intros Ha Hstop. unfold Inv.lowercase_key.
  split; [lia|]. destruct word as [|c word]; [discriminate|].
  split; [discriminate|]. split; [|exact Hstop].
  unfold Py.isalpha in Ha. unfold Py.lower.
  pose proof (proj1 (List.forallb_forall _ _) Ha) as Hall.
  apply List.Forall_forall. intros x Hx.
  apply in_map_iff in Hx as (y & <- & Hy). apply lower_of_alpha, Hall, Hy.
Qed.

Section VocabularyTables.

Variable stop_words : list str.

(** What the loops of [extract_words_from_text] keep true of the processor
    and of the list of words they build; [seen] is the lowercase table,
    which they do not touch. *)
Lemma word_step_keeps (seen : gmap (list ascii) nat)
      (acc : AC.state * list str) (word : str) :
  ((forall k n, AC.standalone_acronyms_seen (fst acc) !! k = Some n ->
                Inv.standalone_key stop_words k n)
   /\ Forall (fun w => Inv.lowercase_key stop_words w 1) (snd acc)
   /\ AC.lowercase_seen (fst acc) = seen) ->
  (forall k n,
     AC.standalone_acronyms_seen (fst (AC.word_step stop_words acc word)) !! k
     = Some n -> Inv.standalone_key stop_words k n)
  /\ Forall (fun w => Inv.lowercase_key stop_words w 1)
            (snd (AC.word_step stop_words acc word))
  /\ AC.lowercase_seen (fst (AC.word_step stop_words acc word)) = seen.
Proof.
  destruct acc as [st lw]. simpl. intros (Hs & Hl & Hseen).
  unfold AC.word_step.
  destruct (negb (Py.isalpha word) || negb (AC.isascii word)
            || Re.matches AC.roman_pattern word) eqn:Hskip;
    [simpl; auto|].
  apply orb_false_iff in Hskip as [Hskip Hroman].
  apply orb_false_iff in Hskip as [Halpha _].
  apply negb_false_iff in Halpha.
  destruct (Py.mem (Py.lower word) stop_words) eqn:Hstop; [simpl; auto|].
  destruct (AC._is_acronym word) eqn:Hacr; simpl.
  - split; [|auto]. intros k n. rewrite incr_lookup.
    destruct (decide (word = k)) as [<-|Hne]; [|apply Hs].
    intros [= <-]. unfold Inv.standalone_key.
    split; [lia|]. auto.
  - split; [exact Hs|]. split; [|exact Hseen].
    apply Forall_app. split; [exact Hl|].
    constructor; [|constructor]. apply lower_word_key; assumption.
Qed.

Lemma line_step_keeps (seen : gmap (list ascii) nat)
      (acc : AC.state * list str) (line : str) :
  ((forall k n, AC.standalone_acronyms_seen (fst acc) !! k = Some n ->
                Inv.standalone_key stop_words k n)
   /\ Forall (fun w => Inv.lowercase_key stop_words w 1) (snd acc)
   /\ AC.lowercase_seen (fst acc) = seen) ->
  (forall k n,
     AC.standalone_acronyms_seen (fst (AC.line_step stop_words acc line)) !! k
     = Some n -> Inv.standalone_key stop_words k n)
  /\ Forall (fun w => Inv.lowercase_key stop_words w 1)
            (snd (AC.line_step stop_words acc line))
  /\ AC.lowercase_seen (fst (AC.line_step stop_words acc line)) = seen.
Proof.
  intros H. unfold AC.line_step. destruct (AC.is_heading line); [exact H|].
  apply (fold_left_keeps
           (fun acc : AC.state * list str =>
              (forall k n, AC.standalone_acronyms_seen (fst acc) !! k = Some n ->
                           Inv.standalone_key stop_words k n)
              /\ Forall (fun w => Inv.lowercase_key stop_words w 1) (snd acc)
              /\ AC.lowercase_seen (fst acc) = seen)
           (AC.word_step stop_words)); [|exact H].
  intros x a. apply word_step_keeps.
Qed.

Lemma extract_words_keeps (st : AC.state) (lines : list str) :
  (forall k n, AC.standalone_acronyms_seen st !! k = Some n ->
               Inv.standalone_key stop_words k n) ->
  (forall k n,
     AC.standalone_acronyms_seen
       (fst (AC.extract_words_from_text stop_words st lines)) !! k = Some n ->
     Inv.standalone_key stop_words k n)
  /\ Forall (fun w => Inv.lowercase_key stop_words w 1)
            (snd (AC.extract_words_from_text stop_words st lines))
  /\ AC.lowercase_seen (fst (AC.extract_words_from_text stop_words st lines))
     = AC.lowercase_seen st.
Proof.
  intros Hs. unfold AC.extract_words_from_text.
  apply (fold_left_keeps
           (fun acc : AC.state * list str =>
              (forall k n, AC.standalone_acronyms_seen (fst acc) !! k = Some n ->
                           Inv.standalone_key stop_words k n)
              /\ Forall (fun w => Inv.lowercase_key stop_words w 1) (snd acc)
              /\ AC.lowercase_seen (fst acc) = AC.lowercase_seen st)
           (AC.line_step stop_words)).
  - intros x a. apply line_step_keeps.
  - simpl. split; [exact Hs|]. split; [constructor | reflexivity].
Qed.

Lemma update_word_data_keeps (st : AC.state) (ws : list str) :
  Forall (fun w => Inv.lowercase_key stop_words w 1) ws ->
  Inv.ac_ok stop_words st ->
  Inv.ac_ok stop_words (AC.update_word_data st ws).
Proof.
  unfold AC.update_word_data. revert st.
  induction ws as [|w ws IH]; intros st Hws Hok; simpl; [exact Hok|].
  inversion Hws as [|? ? Hw Hrest]; subst. apply IH; [exact Hrest|].
  destruct Hok as [Hl Hs]. split; simpl; [|exact Hs].
  intros k n. rewrite incr_lookup.
  destruct (decide (w = k)) as [<-|Hne]; [|apply Hl].
  intros [= <-]. destruct Hw as (_ & Hne & Hlow & Hstop).
  unfold Inv.lowercase_key. split; [lia|]. auto.
Qed.

Lemma ac_process_pdf_ok (st : AC.state) (lines : list str) :
  Inv.ac_ok stop_words st ->
  Inv.ac_ok stop_words (AC.process_pdf stop_words st lines).
Proof.
  intros [Hl Hs]. unfold AC.process_pdf.
  destruct (length lines =? 0); [split; assumption|].
  destruct (extract_words_keeps st lines Hs) as (Hs1 & Hws & Hseen).
  destruct (AC.extract_words_from_text stop_words st lines) as [st1 lw].
  simpl in Hs1, Hws, Hseen.
  assert (Hok1 : Inv.ac_ok stop_words st1).
  { split; [rewrite Hseen; exact Hl | exact Hs1]. }
  destruct (_ && _); [exact Hok1|].
  apply update_word_data_keeps; assumption.
Qed.

Lemma ac_process_all_ok (docs : list (list str)) :
  Inv.ac_ok stop_words (AC.process_all_documents stop_words AC.empty_state docs).
Proof.
  unfold AC.process_all_documents.
  apply (fold_left_keeps (Inv.ac_ok stop_words) (AC.process_pdf stop_words)).
  - intros x a. apply ac_process_pdf_ok.
  - split; intros k n; simpl; rewrite lookup_empty; discriminate.
Qed.

End VocabularyTables.

(** X15: in vocabulary mode, after any sequence of documents, every key
    of the lowercase table has been counted at least once, is a
    non-empty run of lowercase letters, and is no stop word. *)
Theorem lowercase_keys_are_words
    (stop_words : list str) (docs : list (list str)) (k : str) (n : nat) :
  AC.lowercase_seen
    (AC.process_all_documents stop_words AC.empty_state docs) !! k = Some n ->
  1 <= n /\ k <> []
  /\ Forall (fun c => Chr.islower c = true) k
  /\ Py.mem k stop_words = false.
Proof. apply (ac_process_all_ok stop_words docs). Qed.

Lemma lowercase_keys_are_words_witness :
  AC.lowercase_seen
    (AC.process_all_documents [s "the"] AC.empty_state
       [[s "the Ship left port with the USN escort and another Ship"]])
    !! s "ship" = Some 2
  /\ 1 <= 2 /\ s "ship" <> []
  /\ Forall (fun c => Chr.islower c = true) (s "ship")
  /\ Py.mem (s "ship") [s "the"] = false.
Proof.
  split.
  - vm_compute. reflexivity.
  - apply (lowercase_keys_are_words [s "the"]
             [[s "the Ship left port with the USN escort and another Ship"]]).
    vm_compute. reflexivity.
Defined.

(** X16: in vocabulary mode, after any sequence of documents, every key
    of the standalone table has been counted at least once, is
    alphabetic, is an acronym for [_is_acronym], is no stop word once
    lowercased and is not a Roman numeral. *)
Theorem standalone_keys_are_acronyms
    (stop_words : list str) (docs : list (list str)) (k : str) (n : nat) :
  AC.standalone_acronyms_seen
    (AC.process_all_documents stop_words AC.empty_state docs) !! k = Some n ->
  1 <= n /\ Py.isalpha k = true /\ AC._is_acronym k = true
  /\ Py.mem (Py.lower k) stop_words = false
  /\ Re.matches AC.roman_pattern k = false.
Proof. apply (ac_process_all_ok stop_words docs). Qed.

Lemma standalone_keys_are_acronyms_witness :
  AC.standalone_acronyms_seen
    (AC.process_all_documents [s "the"] AC.empty_state
       [[s "the Ship left port with the USN escort and another Ship"]])
    !! s "USN" = Some 1
  /\ 1 <= 1 /\ Py.isalpha (s "USN") = true /\ AC._is_acronym (s "USN") = true
  /\ Py.mem (Py.lower (s "USN")) [s "the"] = false
  /\ Re.matches AC.roman_pattern (s "USN") = false.
Proof.
  split.
  - vm_compute. reflexivity.
  - apply (standalone_keys_are_acronyms [s "the"]
             [[s "the Ship left port with the USN escort and another Ship"]]).
    vm_compute. reflexivity.
Defined.

Lemma update_word_data_spec (ws : list str) (st : AC.state) (k : str) :
  Claimed.count (AC.lowercase_seen (AC.update_word_data st ws)) k
  = Claimed.count (AC.lowercase_seen st) k
    + Heading.count_if (fun w => bool_decide (w = k)) ws
  /\ AC.standalone_acronyms_seen (AC.update_word_data st ws)
     = AC.standalone_acronyms_seen st.
Proof.
  unfold AC.update_word_data. revert st.
  induction ws as [|w ws IH]; intros st; simpl; [split; [lia | reflexivity]|].
  destruct (IH (AC.State (Py.incr w (AC.lowercase_seen st))
                         (AC.standalone_acronyms_seen st))) as [Hc Hs].
  rewrite Hc, Hs. simpl. rewrite count_incr. split; [lia | reflexivity].
Qed.

(** X17: [update_word_data] raises the count of each word by the number
    of times it occurs in the list it is given, creating the entry when
    it is missing, and leaves the standalone table alone. *)
Theorem update_counts_occurrences (ws : list str) (st : AC.state) (k : str) :
  Claimed.count (AC.lowercase_seen (AC.update_word_data st ws)) k
  = Claimed.count (AC.lowercase_seen st) k
    + Heading.count_if (fun w => bool_decide (w = k)) ws
  /\ AC.standalone_acronyms_seen (AC.update_word_data st ws)
     = AC.standalone_acronyms_seen st.
Proof. apply update_word_data_spec. Qed.

(** X18: the lines handed on by the line filter of [extract_text_from_pdf]
    are not empty, are trimmed, and hold no newline. *)
Theorem extracted_lines_are_trimmed (pages : list str) (line : str) :
  In line (AC.extract_lines pages) ->
  line <> [] /\ Py.strip line = line /\ ~ In "010"%char line.
Proof.
  unfold AC.extract_lines. intros Hin.
  apply filter_In in Hin as [Hin Hpos].
  apply in_map_iff in Hin as (raw & <- & Hraw).
  apply in_flat_map in Hraw as (page & _ & Hraw).
  split; [|split].
  - apply Nat.ltb_lt in Hpos. intros H. rewrite H in Hpos. simpl in Hpos. lia.
  - apply strip_idempotent.
  - pose proof (split_on_no_delim "010"%char page) as F.
    rewrite List.Forall_forall in F. specialize (F raw Hraw).
    intros Hnl.
    assert (G : Forall (fun x => x <> "010"%char) (Py.strip raw)).
    { apply strip_Forall, List.Forall_forall. intros x Hx ->. exact (F Hx). }
    rewrite List.Forall_forall in G. exact (G _ Hnl eq_refl).
Qed.

Lemma extracted_lines_are_trimmed_witness :
  In (s "a b") (AC.extract_lines [s "  a b " ++ "010"%char :: s " "; s "c"])
  /\ s "a b" <> [] /\ Py.strip (s "a b") = s "a b"
  /\ ~ In "010"%char (s "a b").
Proof.
  split.
  - vm_compute. left. reflexivity.
  - apply (extracted_lines_are_trimmed
             [s "  a b " ++ "010"%char :: s " "; s "c"]).
    vm_compute. left. reflexivity.
Defined.

(** ** When the cut is the clause *)

Lemma space_is_no_marker (c : ascii) :
  Chr.isspace c = true -> Claimed.is_marker c = false.
Proof. destruct c as [[] [] [] [] [] [] [] []]; vm_compute; congruence. Qed.

Lemma after_last_marker_None (t : str) :
  Forall (fun c => Claimed.is_marker c = false) t ->
  Claimed.after_last_marker t = None.
Proof.
  induction 1 as [|c t Hc _ IH]; simpl; [reflexivity|].
  rewrite IH, Hc. reflexivity.
Qed.

Lemma after_last_marker_at (t : str) (p : nat) (m : ascii) :
  t !! p = Some m -> Claimed.is_marker m = true ->
  Forall (fun c => Claimed.is_marker c = false) (drop (S p) t) ->
  Claimed.after_last_marker t = Some (drop (S p) t).
Proof.
  revert p. induction t as [|c t IH]; intros p; [discriminate|].
  destruct p as [|p]; simpl.
  - intros [= ->] Hm Hrest. rewrite drop_0 in *.
    rewrite (after_last_marker_None t Hrest), Hm. reflexivity.
  - intros Hp Hm Hrest. rewrite (IH p Hp Hm Hrest). reflexivity.
Qed.

Lemma after_last_marker_clean (t r : str) :
  Claimed.after_last_marker t = Some r ->
  Forall (fun c => Claimed.is_marker c = false) r.
Proof.
  revert r. induction t as [|c t IH]; intros r; simpl; [discriminate|].
  destruct (Claimed.after_last_marker t) as [r'|] eqn:Hr.
  - intros [= <-]. apply IH. reflexivity.
  - destruct (Claimed.is_marker c); [|discriminate].
    intros [= <-]. clear IH.
    induction t as [|x t IHt]; [constructor|]. simpl in Hr.
    destruct (Claimed.after_last_marker t); [discriminate|].
    destruct (Claimed.is_marker x) eqn:Hx; [discriminate|].
    constructor; [exact Hx | apply IHt; reflexivity].
Qed.

Lemma clause_clean (t : str) :
  Forall (fun c => Claimed.is_marker c = false) t
  \/ Forall (fun c => Claimed.is_marker c = false) (Claimed.clause t).
Proof.
  unfold Claimed.clause.
  destruct (Claimed.after_last_marker t) as [r|] eqn:Hr.
  - right. apply strip_Forall. eapply after_last_marker_clean, Hr.
  - left. clear -Hr. induction t as [|x t IHt]; [constructor|]. simpl in Hr.
    destruct (Claimed.after_last_marker t); [discriminate|].
    destruct (Claimed.is_marker x) eqn:Hx; [discriminate|].
    constructor; [exact Hx | apply IHt; reflexivity].
Qed.

Lemma unstrip_clean (t : str) :
  Forall (fun c => Claimed.is_marker c = false) (Py.strip t) ->
  Forall (fun c => Claimed.is_marker c = false) t.
Proof.
  intros H. destruct (strip_split t) as (pre & suf & Heq & Fpre & Fsuf).
  rewrite Heq. apply Forall_app. split; [|apply Forall_app; split].
  - eapply Forall_impl; [exact Fpre|]. apply space_is_no_marker.
  - exact H.
  - eapply Forall_impl; [exact Fsuf|]. apply space_is_no_marker.
Qed.

Lemma cut_is_clause (markers c : str) :
  Forall (fun m => Claimed.is_marker m = true) markers ->
  Forall (fun x => Claimed.is_marker x = false) (SW.cut_at_marker markers c) ->
  SW.cut_at_marker markers c = Claimed.clause c.
Proof.
  intros Hms. induction Hms as [|m ms Hm _ IH]; simpl.
  - intros Hc. unfold Claimed.clause.
    rewrite (after_last_marker_None c Hc). reflexivity.
  - destruct (Py.rfind m c) as [p|] eqn:Hr; [|exact IH].
    intros Hclean. apply unstrip_clean in Hclean.
    apply rfind_Some in Hr as [Hp _].
    unfold Claimed.clause.
    rewrite (after_last_marker_at c p m Hp Hm Hclean). reflexivity.
Qed.

(** X19: the clause the candidate extractor keeps is the text after the
    last sentence mark of any kind exactly when no sentence mark is left
    in what it keeps. *)
Theorem cut_is_clause_iff_clean (c : str) :
  SW.cut_at_marker SW.sentence_markers c = Claimed.clause c
  <-> Forall (fun x => Claimed.is_marker x = false)
             (SW.cut_at_marker SW.sentence_markers c).
Proof.
  split.
  - intros Heq. destruct (clause_clean c) as [Hc | Hc].
    + apply cut_at_marker_Forall, Hc.
    + rewrite Heq. exact Hc.
  - apply cut_is_clause. repeat constructor.
Qed.

(** ** Words with at most one capital *)

Lemma count_if_all {A} (p : A -> bool) (l : list A) :
  Forall (fun x => p x = true) l -> Heading.count_if p l = length l.
Proof.
  induction 1 as [|x l Hx _ IH]; simpl; [reflexivity|].
  rewrite Hx, IH. reflexivity.
Qed.

(** X20: an alphabetic word of two letters or more with at most one
    capital is an acronym for [_is_acronym] only by being on the list of
    known mixed-case acronyms. *)
Theorem one_capital_is_no_acronym (word : str) :
  Py.isalpha word = true -> 2 <= length word ->
  Heading.count_if Chr.isupper word <= 1 ->
  AC._is_acronym word = Py.mem (Py.lower word) AC.known_mixed_acronyms.
Proof.
  intros Ha Hlen Hcaps. unfold AC._is_acronym.
  destruct (Py.mem (Py.lower word) AC.known_mixed_acronyms); [reflexivity|].
  assert (Hup : Py.isupper word = false).
  { destruct (Py.isupper word) eqn:Hup; [|reflexivity]. exfalso.
    unfold Py.isupper in Hup. apply andb_true_iff in Hup as [_ Hnl].
    apply negb_true_iff in Hnl.
    destruct word as [|c word]; [discriminate|].
    pose proof (upper_of_alpha_no_lower _ Ha Hnl) as Hall.
    rewrite (count_if_all _ _ Hall) in Hcaps. lia. }
  rewrite Hup, andb_false_l. cbv zeta.
  assert (H2 : (2 <=? Heading.count_if Chr.isupper word) = false)
    by (apply Nat.leb_gt; lia).
  rewrite H2, andb_false_l, andb_false_r, andb_false_l. reflexivity.
Qed.

Lemma one_capital_is_no_acronym_witness :
  Py.isalpha (s "Ship") = true /\ 2 <= length (s "Ship")
  /\ Heading.count_if Chr.isupper (s "Ship") <= 1
  /\ AC._is_acronym (s "Ship")
     = Py.mem (Py.lower (s "Ship")) AC.known_mixed_acronyms.
Proof.
  assert (H1 : Py.isalpha (s "Ship") = true) by (vm_compute; reflexivity).
  assert (H2 : 2 <= length (s "Ship")) by (vm_compute; lia).
  assert (H3 : Heading.count_if Chr.isupper (s "Ship") <= 1)
    by (vm_compute; lia).
  split; [exact H1|]. split; [exact H2|]. split; [exact H3|].
  exact (one_capital_is_no_acronym (s "Ship") H1 H2 H3).
Defined.

(** ** Deleting a processed file *)

Lemma attempts_spec (world : nat -> Del.outcome) (delay a r : nat) :
  length (Del.attempts world delay a r) <= r
  /\ Del.slept (Del.attempts world delay a r) <= r * delay
  /\ (In Del.Delete (Del.attempts world delay a r)
      <-> exists i, a <= i < a + r /\ world i = Del.Removed
                    /\ forall j, a <= j < i -> world j = Del.Locked).
Proof.
  revert a. induction r as [|r IH]; intros a; simpl.
  - split; [lia|]. split; [lia|]. split; [intros [] | intros (i & Hi & _); lia].
  - destruct (world a) eqn:Ha; simpl.
    + split; [lia|]. split; [lia|]. split; [intros []|].
      intros (i & Hi & Hrem & Hlock).
      destruct (decide (i = a)) as [->|Hne]; [congruence|].
      assert (Hl : world a = Del.Locked) by (apply Hlock; lia). congruence.
    + split; [lia|]. split; [lia|]. split; [|intros _; left; reflexivity].
      intros _. exists a. split; [lia|]. split; [exact Ha|]. intros j Hj. lia.
    + destruct (IH (S a)) as (Hlen & Hsl & Hdel).
      split; [lia|]. split; [lia|]. split.
      * intros [Hd | Hd]; [discriminate|].
        apply Hdel in Hd as (i & Hi & Hrem & Hlock).
        exists i. split; [lia|]. split; [exact Hrem|]. intros j Hj.
        destruct (decide (j = a)) as [->|Hne]; [exact Ha | apply Hlock; lia].
      * intros (i & Hi & Hrem & Hlock). right. apply Hdel.
        destruct (decide (i = a)) as [->|Hne]; [congruence|].
        exists i. split; [lia|]. split; [exact Hrem|].
        intros j Hj. apply Hlock. lia.
    + split; [lia|]. split; [lia|]. split; [intros [H | []]; discriminate|].
      intros (i & Hi & Hrem & Hlock).
      destruct (decide (i = a)) as [->|Hne]; [congruence|].
      assert (Hl : world a = Del.Locked) by (apply Hlock; lia). congruence.
Qed.

(** X21: [safe_delete] makes at most [retries] attempts and sleeps at most
    [retries * delay] in all; it removes the file exactly when one of
    the first [retries] attempts goes through and every attempt before it
    met a [PermissionError]. *)
Theorem safe_delete_is_bounded
    (world : nat -> Del.outcome) (retries delay : nat) :
  length (Del.safe_delete world retries delay) <= retries
  /\ Del.slept (Del.safe_delete world retries delay) <= retries * delay
  /\ (In Del.Delete (Del.safe_delete world retries delay)
      <-> exists i, i < retries /\ world i = Del.Removed
                    /\ forall j, j < i -> world j = Del.Locked).
Proof.
  unfold Del.safe_delete.
  destruct (attempts_spec world delay 0 retries) as (Hlen & Hsl & Hdel).
  split; [exact Hlen|]. split; [exact Hsl|]. rewrite Hdel. split.
  - intros (i & Hi & Hrem & Hlock). exists i. split; [lia|].
    split; [exact Hrem|]. intros j Hj. apply Hlock. lia.
  - intros (i & Hi & Hrem & Hlock). exists i. split; [lia|].
    split; [exact Hrem|]. intros j Hj. apply Hlock. lia.
Qed.

(** ** The rows that are written *)

Lemma str_leb_refl (a : str) : Out.str_leb a a = true.
Proof.
  induction a as [|x a IH]; simpl; [reflexivity|].
  rewrite Nat.eqb_refl, IH, orb_true_r. reflexivity.
Qed.

Lemma str_leb_total (a b : str) :
  Out.str_leb a b = true \/ Out.str_leb b a = true.
Proof.
  revert b. induction a as [|x a IH]; intros [|y b]; simpl; auto.
  destruct (Nat.lt_trichotomy (Chr.code x) (Chr.code y)) as [H | [H | H]].
  - left. apply Nat.ltb_lt in H. rewrite H. reflexivity.
  - rewrite H, Nat.eqb_refl, Nat.ltb_irrefl. simpl. apply IH.
  - right. apply Nat.ltb_lt in H. rewrite H. reflexivity.
Qed.

Lemma str_le_total : Total Out.str_le.
Proof. intros a b. apply str_leb_total. Qed.

Lemma sorted_keys_spec {V : Type} (d : gmap (list ascii) V) (k : str) :
  In k (Out.sorted_keys d) <-> is_Some (d !! k).
Proof.
  unfold Out.sorted_keys. rewrite <- list_elem_of_In.
  rewrite (merge_sort_Permutation Out.str_le).
  rewrite list_elem_of_fmap. split.
  - intros ([k' v] & -> & Hin). apply elem_of_map_to_list in Hin.
    exists v. exact Hin.
  - intros [v Hv]. exists (k, v). split; [reflexivity|].
    apply elem_of_map_to_list. exact Hv.
Qed.

Lemma sorted_keys_sorted {V : Type} (d : gmap (list ascii) V) :
  Sorted Out.str_le (Out.sorted_keys d) /\ NoDup (Out.sorted_keys d)
  /\ length (Out.sorted_keys d) = size d.
Proof.
  unfold Out.sorted_keys.
  split; [apply (@Sorted_merge_sort _ Out.str_le _ str_le_total)|].
  split.
  - rewrite (merge_sort_Permutation Out.str_le). apply NoDup_fst_map_to_list.
  - rewrite (merge_sort_Permutation Out.str_le), length_fmap.
    apply length_map_to_list.
Qed.

Lemma map_fst_rows {B : Type} (f : str -> B) (l : list str) :
  map fst (map (fun k => (k, f k)) l) = l.
Proof. induction l as [|k l IH]; simpl; [reflexivity | now rewrite IH]. Qed.

(** X22: the rows of a counter file come one per key of the table, in
    the order of [sorted] and without repetition, and each row carries
    the count stored under its key. *)
Theorem count_rows_are_the_table (d : gmap (list ascii) nat) :
  Sorted Out.str_le (map fst (Out.count_rows d))
  /\ NoDup (map fst (Out.count_rows d))
  /\ length (Out.count_rows d) = size d
  /\ (forall k n, In (k, n) (Out.count_rows d) <-> d !! k = Some n).
Proof.
  destruct (sorted_keys_sorted d) as (Hs & Hn & Hl).
  unfold Out.count_rows. rewrite map_fst_rows, length_map.
  split; [exact Hs|]. split; [exact Hn|]. split; [exact Hl|].
  intros k n. rewrite in_map_iff. split.
  - intros (k' & Heq & Hin). injection Heq as -> <-.
    apply sorted_keys_spec in Hin as [v Hv]. rewrite Hv. reflexivity.
  - intros Hk. exists k. rewrite Hk. split; [reflexivity|].
    apply sorted_keys_spec. eauto.
Qed.

(** X23: after any corpus, the rows of the mapping file come one per
    acronym of the mapping table, in the order of [sorted], and each row
    carries the stored long form and the stored frequency, which is at
    least 1: the default of the frequency table is never what is
    written. *)
Theorem mapping_rows_are_the_tables (texts : list str) :
  let st := SW.process_all_pdfs SW.empty_state texts in
  Sorted Out.str_le (map (fun r => fst (fst r)) (Out.mapping_rows st))
  /\ length (Out.mapping_rows st) = size (SW.acronym_mappings st)
  /\ (forall k v n,
        In (k, v, n) (Out.mapping_rows st)
        <-> SW.acronym_mappings st !! k = Some v
            /\ SW.acronym_frequencies st !! k = Some n)
  /\ (forall k v n, In (k, v, n) (Out.mapping_rows st) -> 1 <= n).
Proof.
  cbv zeta.
  destruct (process_all_ok texts _ empty_state_ok) as (Hsame & Hpos & _).
  set (st := SW.process_all_pdfs SW.empty_state texts) in *.
  destruct (sorted_keys_sorted (SW.acronym_mappings st)) as (Hs & _ & Hl).
  assert (Hrow : forall k v n,
             In (k, v, n) (Out.mapping_rows st)
             <-> SW.acronym_mappings st !! k = Some v
                 /\ SW.acronym_frequencies st !! k = Some n).
  { intros k v n. unfold Out.mapping_rows. rewrite in_map_iff. split.
    - intros (k' & Heq & Hin). injection Heq as -> <- <-.
      apply sorted_keys_spec in Hin as Hm.
      destruct Hm as [v Hv]. destruct (proj1 (Hsame k) (ex_intro _ v Hv)) as [n Hn].
      rewrite Hv, Hn. split; reflexivity.
    - intros [Hv Hn]. exists k. rewrite Hv, Hn. split; [reflexivity|].
      apply sorted_keys_spec. eauto. }
  split; [|split; [|split; [exact Hrow|]]].
  - unfold Out.mapping_rows. rewrite map_map. simpl. rewrite map_id. exact Hs.
  - unfold Out.mapping_rows. rewrite length_map. exact Hl.
  - intros k v n Hin. apply Hrow in Hin as [_ Hn]. eapply Hpos, Hn.
Qed.

(** ** The tokens the scans report *)

Lemma wordb_spec (k k' : Re.cur) : In k' (Re.wordb k) -> k' = k.
Proof.
  unfold Re.wordb. destruct (xorb _ _); [|intros []].
  intros [<- | []]. reflexivity.
Qed.

Lemma token_rx_spec (k k' : Re.cur) (tok : str) :
  SW.token_rx k = Some (tok, k') ->
  2 <= length tok <= 10 /\ Forall (fun c => Chr.isupper c = true) tok.
Proof.
  unfold SW.token_rx. intros H. apply head_In in H.
  apply in_map_iff in H as (k2 & Heq & H). injection Heq as <- <-.
  unfold Re.seq in H.
  apply in_flat_map in H as (k0 & Hk0 & H).
  apply wordb_spec in Hk0. subst k0.
  apply in_flat_map in H as (k1 & Hk1 & H).
  apply wordb_spec in H. subst k2.
  apply rep_one_spec in Hk1 as (w & Hw & Fw & Hlen).
  rewrite (consumed_prefix _ _ _ Hw). split; assumption.
Qed.

(** X24: every token the standalone scan takes from the text is made of
    2 to 10 capital letters, so that [is_valid_acronym] rejects it only
    for being one letter written twice or a listed false positive. *)
Theorem capital_tokens (text tok : str) :
  In tok (Re.find_all SW.token_rx text) ->
  2 <= length tok <= 10
  /\ Forall (fun c => Chr.isupper c = true) tok
  /\ (SW.is_valid_acronym tok = true
      <-> (forall c, tok <> [c; c])
          /\ Py.mem tok SW.false_positives = false).
Proof.
  unfold Re.find_all. intros Hin.
  apply scan_In in Hin as (k0 & k' & Hrx).
  apply token_rx_spec in Hrx as [Hlen Hup].
  split; [exact Hlen|]. split; [exact Hup|].
  rewrite valid_acronym_iff. tauto.
Qed.

Lemma capital_tokens_witness :
  In (s "RD") (Re.find_all SW.token_rx Ex.rd_alone)
  /\ 2 <= length (s "RD") <= 10
  /\ Forall (fun c => Chr.isupper c = true) (s "RD")
  /\ (SW.is_valid_acronym (s "RD") = true
      <-> (forall c, s "RD" <> [c; c])
          /\ Py.mem (s "RD") SW.false_positives = false).
Proof.
  split.
  - vm_compute. left. reflexivity.
  - apply (capital_tokens Ex.rd_alone). vm_compute. left. reflexivity.
Defined.

Lemma alpha_is_ascii (c : ascii) :
  Chr.isalpha c = true -> (Chr.code c <? 128) = true.
Proof. destruct c as [[] [] [] [] [] [] [] []]; vm_compute; congruence. Qed.

Lemma word_rx_spec (k k' : Re.cur) (word : str) :
  AC.word_rx k = Some (word, k') ->
  2 <= length word /\ Forall (fun c => Chr.isalpha c = true) word.
Proof.
  unfold AC.word_rx. intros H. apply head_In in H.
  apply in_map_iff in H as (k3 & Heq & H). injection Heq as <- <-.
  unfold Re.seq in H.
  apply in_flat_map in H as (k0 & Hk0 & H).
  apply wordb_spec in Hk0. subst k0.
  apply in_flat_map in H as (k2 & Hk2 & H).
  apply wordb_spec in H. subst k3.
  apply in_flat_map in Hk2 as (k1 & Hk1 & Hk2).
  apply one_spec in Hk1 as (c & Hc & Hpc & _).
  unfold Re.plus in Hk2.
  apply rep_one_spec in Hk2 as (w & Hw & Fw & Hlen).
  assert (Hcons : snd k = (c :: w) ++ snd k2).
  { rewrite Hc, Hw. reflexivity. }
  rewrite (consumed_prefix _ _ _ Hcons). split; [simpl; lia|].
  constructor; assumption.
Qed.

(** X25: every word the word pattern of vocabulary mode finds in a line
    has at least two characters, all of them ASCII letters; the test
    [not word.isalpha() or not word.isascii()] of the word loop
    therefore never holds. *)
Theorem found_words_are_alphabetic (line word : str) :
  In word (Re.find_all AC.word_rx line) ->
  2 <= length word
  /\ Py.isalpha word = true
  /\ AC.isascii word = true
  /\ negb (Py.isalpha word) || negb (AC.isascii word) = false.
Proof.
  unfold Re.find_all. intros Hin.
  apply scan_In in Hin as (k0 & k' & Hrx).
  apply word_rx_spec in Hrx as [Hlen Hal].
  assert (Ha : Py.isalpha word = true).
  { destruct word as [|c word]; [simpl in Hlen; lia|].
    unfold Py.isalpha. apply forallb_forall.
    rewrite List.Forall_forall in Hal. exact Hal. }
  assert (Hasc : AC.isascii word = true).
  { unfold AC.isascii. apply forallb_forall. intros x Hx.
    rewrite List.Forall_forall in Hal. apply alpha_is_ascii, Hal, Hx. }
  split; [exact Hlen|]. split; [exact Ha|]. split; [exact Hasc|].
  rewrite Ha, Hasc. reflexivity.
Qed.

Lemma found_words_are_alphabetic_witness :
  In (s "USN") (Re.find_all AC.word_rx (s "the USN ship a1 x"))
  /\ 2 <= length (s "USN")
  /\ Py.isalpha (s "USN") = true
  /\ AC.isascii (s "USN") = true
  /\ negb (Py.isalpha (s "USN")) || negb (AC.isascii (s "USN")) = false.
Proof.
  split.
  - vm_compute. right. left. reflexivity.
  - apply (found_words_are_alphabetic (s "the USN ship a1 x")).
    vm_compute. right. left. reflexivity.
Defined.

(** ** Cleaning *)






